(** * ADM-convert: the PRF historical-index exporter (adm_index_exporter.py)

    A shallow embedding of the crawl-and-export script: the completion
    ledger, the enumerator of grid ids, the per-grid exporter and the
    orchestrating loop of [main], with the properties of its specification. *)

From Stdlib Require Import ZArith NArith String Ascii DecimalString Lia.
From stdpp Require Import base strings list gmap.

Open Scope string_scope.
Open Scope list_scope.

(** ** Python values *)

Module Py.

(** An exception object: its class name and what [str(e)] shows. *)
Record exn := Exn { exn_class : string; exn_msg : string }.

Definition RuntimeError (msg : string) : exn := Exn "RuntimeError" msg.
Definition FileNotFoundError (msg : string) : exn := Exn "FileNotFoundError" msg.
Definition OSError (msg : string) : exn := Exn "OSError" msg.

(** A Selenium exception prints as [Message: <msg>] and a line feed (the
    screen and stack trace that may follow are left out). *)
Definition selenium_exn (class msg : string) : exn :=
  Exn class ("Message: " +:+ msg +:+ String (ascii_of_nat 10) "").
Definition TimeoutException (msg : string) : exn := selenium_exn "TimeoutException" msg.
Definition NoSuchElementException (msg : string) : exn :=
  selenium_exn "NoSuchElementException" msg.

(** Outcome of a call: a value, or a raised exception. *)
Inductive result (A : Type) : Type :=
| Ok (a : A)
| Raise (e : exn).
Arguments Ok {A} a.
Arguments Raise {A} e.

(** [str(n)] for an [int]. *)
Definition str_int (n : Z) : string := NilZero.string_of_int (Z.to_int n).

(** The builtins [str.strip] and [str.lower] act on Unicode text; the
    script is verified for any pair of functions standing for them. *)
Class StrOps := { strip : string → string; lower : string → string }.

(** [needle in hay] for two strings. *)
Fixpoint str_contains (needle hay : string) : bool :=
  String.prefix needle hay ||
  match hay with
  | EmptyString => false
  | String _ rest => str_contains needle rest
  end.

(** Truthiness of a string. *)
Definition truthy (s : string) : bool :=
  match s with EmptyString => false | _ => true end.

(** A state-and-exception monad over an environment [W]: a raised
    exception keeps the effects performed before it. *)
Definition M (W A : Type) : Type := W → result A * W.

Definition ret {W A} (a : A) : M W A := λ w, (Ok a, w).
Definition raise {W A} (e : exn) : M W A := λ w, (Raise e, w).
Definition bind {W A B} (m : M W A) (k : A → M W B) : M W B :=
  λ w, match m w with
       | (Ok a, w') => k a w'
       | (Raise e, w') => (Raise e, w')
       end.
(** [try: body except Exception as e: handler(e)] *)
Definition try_except {W A} (body : M W A) (handler : exn → M W A) : M W A :=
  λ w, match body w with
       | (Ok a, w') => (Ok a, w')
       | (Raise e, w') => handler e w'
       end.
(** [try: body finally: cleanup] *)
Definition try_finally {W A} (body : M W A) (cleanup : W → W) : M W A :=
  λ w, let '(r, w') := body w in (r, cleanup w').
(** A statement that only changes the environment. *)
Definition effect {W} (f : W → W) : M W unit := λ w, (Ok tt, f w).
(** An expression that only reads the environment. *)
Definition read {W A} (f : W → A) : M W A := λ w, (Ok (f w), w).

(** [for x in l: acc = body(acc, x)], stopping at the first exception. *)
Fixpoint for_fold {W A B} (l : list A) (body : B → A → M W B) (acc : B) : M W B :=
  match l with
  | [] => ret acc
  | x :: rest => bind (body acc x) (for_fold rest body)
  end.

(** [for x in l: body(x)] *)
Definition for_each {W A} (l : list A) (body : A → M W unit) : M W unit :=
  for_fold l (λ _ x, body x) tt.

End Py.
Export Py.

Notation "'do' x <- m ; k" := (bind m (λ x, k))
  (at level 10, x name, m at level 100, k at level 200).
Notation "'run' m ; k" := (bind m (λ _, k))
  (at level 10, m at level 100, k at level 200).

(** ** De-duplication while preserving order (discover_all_grids, l.150-156) *)

(** The loop [for g in all_grids: if g not in seen: seen.add(g); ordered.append(g)],
    as a left fold over the pair [(seen, ordered)]. *)
Definition dedup_step (acc : gset string * list string) (g : string)
  : gset string * list string :=
  let '(seen, ordered) := acc in
  if decide (g ∈ seen) then (seen, ordered)
  else ({[ g ]} ∪ seen, ordered ++ [g]).

Definition dedup_ordered (all_grids : list string) : list string :=
  snd (fold_left dedup_step all_grids (∅, [])).

(** ** The remote page (Session Driver side) *)

(** The five [<select>] controls the script locates by CSS selector:
    [select#State, select[name='State']] and likewise for the others. *)
Inductive control : Type :=
| State | County | GridId | HistoricalStartYear | HistoricalEndYear.

#[global] Instance control_eq_dec : EqDecision control.
Proof. solve_decision. Defined.

(** An [<option>]: its visible text and its [value] attribute, when the
    element carries one. *)
Record option_el := OptionEl { opt_text : string; opt_attr : option string }.

#[global] Instance option_el_eq_dec : EqDecision option_el.
Proof. solve_decision. Defined.

(** [o.get_attribute("value")]: the attribute when the option carries one,
    else the [value] property of the element, which is then its text. *)
Definition opt_value (o : option_el) : string := default (opt_text o) (opt_attr o).

(** What a click on an [<a>] or [<button>] does on the page: it opens a tab,
    starts the export, does nothing, or is refused by the driver with an
    exception (the element is covered, disabled, gone). *)
Inductive action : Type := OpenTab | ExportCsv | Inert | Raises (e : exn).

Record clickable := Clickable { el_text : string; el_action : action }.

(** The page served at [PRF_URL].  The County list depends on the selected
    State and the Grid list on the selected State and County.  A click on the
    export control makes the browser write one file, under a name and after a
    delay (milliseconds) that the page decides; [None]: nothing is written. *)
Record site := Site {
  site_clickables : list clickable;
  site_present : control → bool;
  site_states : list option_el;
  site_counties : string → list option_el;
  site_grids : string → string → list option_el;
  site_start_years : list option_el;
  site_end_years : list option_el;
  site_download : option (N * string)
}.

(** ** The local environment *)

(** [DOWNLOAD_DIR / name], kept as the operand [name] it was built from.
    Two paths are equal here when their operands are the same text, which is
    finer than equality of [pathlib] paths and than identity of the files
    they name: nothing below concludes that two files differ from the fact
    that their names do. *)
Inductive Path : Type := InDownloadDir (name : string).

Definition rel_name (p : Path) : string := let 'InDownloadDir n := p in n.

(** [p.name], the last component of the path. *)
Fixpoint last_component (acc s : string) : string :=
  match s with
  | EmptyString => acc
  | String c rest =>
      if Ascii.eqb c "/" then last_component "" rest
      else last_component (acc +:+ String c "") rest
  end.

Definition path_name (p : Path) : string := last_component "" (rel_name p).

(** The clock counts milliseconds, so that [time.sleep(0.5)] is [sleep 500].
    [selected] is the shared form of the page: the value chosen in each select,
    kept until a later selection overwrites it.  [files] are the entries of
    DOWNLOAD_DIR by name (the ledger apart), [pending] the downloads in flight, each
    with the instant at which it is written.  [ledger] is LOG_DONE, [None]
    when the file does not exist.  [fs_refuses name] is the error with which
    the file system refuses to make [name] an entry of DOWNLOAD_DIR, if it
    does (a directory part that is not there, a name that is too long).
    [csv_join raw field] is what the [csv] module makes of the text [raw]
    followed by the bytes [writerow([field])] writes: the rows [csv.reader]
    yields from it, and the text left unterminated at its end, if any. *)
Record ledger_file := LedgerFile {
  (** the rows [csv.reader] yields from the file *)
  lf_rows : list (list string);
  (** the text after the last complete row, when the file does not end in
      one; it is then the text the last of [lf_rows] was read from *)
  lf_tail : option string
}.

Record world := World {
  clock : N;
  session : bool;
  tab : option string;
  selected : control → option string;
  files : gset string;
  pending : list (N * string);
  ledger : option ledger_file;
  stdout : list string;
  fs_refuses : string → option exn;
  csv_join : string → string → list (list string) * option string
}.

Definition set_clock (f : N → N) (w : world) : world :=
  World (f (clock w)) (session w) (tab w) (selected w) (files w) (pending w)
        (ledger w) (stdout w)
        (fs_refuses w) (csv_join w).
Definition set_session (b : bool) (w : world) : world :=
  World (clock w) b (tab w) (selected w) (files w) (pending w)
        (ledger w) (stdout w)
        (fs_refuses w) (csv_join w).
Definition set_tab (t : option string) (w : world) : world :=
  World (clock w) (session w) t (selected w) (files w) (pending w)
        (ledger w) (stdout w)
        (fs_refuses w) (csv_join w).
Definition set_selected (f : control → option string) (w : world) : world :=
  World (clock w) (session w) (tab w) f (files w) (pending w)
        (ledger w) (stdout w)
        (fs_refuses w) (csv_join w).
Definition set_files (fs : gset string) (p : list (N * string)) (w : world) : world :=
  World (clock w) (session w) (tab w) (selected w) fs p (ledger w) (stdout w)
        (fs_refuses w) (csv_join w).
Definition set_ledger (l : option ledger_file) (w : world) : world :=
  World (clock w) (session w) (tab w) (selected w) (files w) (pending w)
        l (stdout w)
        (fs_refuses w) (csv_join w).
Definition set_stdout (o : list string) (w : world) : world :=
  World (clock w) (session w) (tab w) (selected w) (files w) (pending w)
        (ledger w) o
        (fs_refuses w) (csv_join w).

(** [time.sleep(ms / 1000)] *)
Definition sleep (ms : N) (w : world) : world := set_clock (λ t, (t + ms)%N) w.

(** [print(line)] *)
Definition print (line : string) (w : world) : world :=
  set_stdout (stdout w ++ [line]) w.

(** ** Configuration constants *)

Definition START_YEAR : Z := 1940.
Definition END_YEAR : Z := 2025.

(** ** Ledger (get_completed l.72-79, mark_completed l.81-83) *)

(** [for row in csv.reader(f): if row: done.add(row[0])] *)
Definition add_row (done : gset string) (row : list string) : gset string :=
  match row with
  | [] => done
  | first :: _ => {[ first ]} ∪ done
  end.

Definition get_completed (w : world) : gset string :=
  match ledger w with
  | Some f => fold_left add_row (lf_rows f) ∅
  | None => ∅
  end.

(** [open(LOG_DONE, "a")] creates the file when it is missing and writes at
    its end; [writerow([grid_id])] writes the field and a line terminator.
    After a complete row, or in an empty file, that is one more row of one
    field.  After an unterminated text the bytes continue that text, and the
    file reads as [csv_join] says. *)
Definition mark_completed (grid_id : string) (w : world) : world :=
  match ledger w with
  | None => set_ledger (Some (LedgerFile [[grid_id]] None)) w
  | Some f =>
      match lf_tail f with
      | None => set_ledger (Some (LedgerFile (lf_rows f ++ [[grid_id]]) None)) w
      | Some raw =>
          let '(rows, tail) := csv_join w raw grid_id in
          set_ledger (Some (LedgerFile (removelast (lf_rows f) ++ rows) tail)) w
      end
  end.

(** ** Files of the download directory *)

(** The download in flight is on disk once its instant has come. *)
Definition has_arrived (w : world) (d : N * string) : Prop := (d.1 <= clock w)%N.

#[global] Instance has_arrived_dec w d : Decision (has_arrived w d).
Proof. unfold has_arrived. apply _. Defined.

Definition arrived (w : world) : gset string :=
  list_to_set (map snd (filter (has_arrived w) (pending w))).

(** [p.exists()] *)
Definition path_exists (p : Path) (w : world) : bool :=
  bool_decide (rel_name p ∈ files w ∪ arrived w).

(** [src.replace(dst)]: the rename fails when the source is not there or
    when the file system refuses the target name. *)
Definition path_replace (src dst : Path) : M world unit :=
  λ w, if path_exists src w
       then match fs_refuses w (rel_name dst) with
            | Some e => (Raise e, w)
            | None =>
                (Ok tt,
                 set_files ({[ rel_name dst ]} ∪ (files w ∪ arrived w) ∖ {[ rel_name src ]})
                           (filter (λ d, ¬ has_arrived w d) (pending w)) w)
            end
       else (Raise (FileNotFoundError (rel_name src)), w).

Section Script.

Context `{StrOps}.
Variable web : site.

(** *** Session Driver operations *)

(** [WebDriverWait(d, timeout).until(presence_of_element_located(css))]:
    the element when it is on the page, else TimeoutException once the
    [timeout] seconds have passed. *)
Definition wait_for (c : control) (timeout : N) : M world control :=
  λ w, if site_present web c then (Ok c, w)
       else (Raise (TimeoutException ""), sleep (timeout * 1000) w).

(** [Select(sel_el).options] under the selections currently in the form. *)
Definition options_of (sel_el : control) (w : world) : list option_el :=
  match sel_el with
  | State => site_states web
  | County =>
      match selected w State with
      | Some s => site_counties web s
      | None => []
      end
  | GridId =>
      match selected w State, selected w County with
      | Some s, Some c => site_grids web s c
      | _, _ => []
      end
  | HistoricalStartYear => site_start_years web
  | HistoricalEndYear => site_end_years web
  end.

Definition choose (sel_el : control) (v : string) (w : world) : world :=
  set_selected (λ c, if decide (c = sel_el) then Some v else selected w c) w.

(** [Select(sel_el).select_by_value(v)]: the options are looked up by their
    [value] attribute ([option[value="v"]]), so an option without the
    attribute is never found. *)
Definition select_by_value (sel_el : control) (v : string) : M world unit :=
  λ w, match find (λ o, bool_decide (opt_attr o = Some v)) (options_of sel_el w) with
       | Some o => (Ok tt, choose sel_el (opt_value o) w)
       | None =>
           (Raise (NoSuchElementException ("Cannot locate option with value: " +:+ v)), w)
       end.

(** [Select(sel_el).select_by_visible_text(t)] *)
Definition select_by_visible_text (sel_el : control) (t : string) : M world unit :=
  λ w, match find (λ o, String.eqb (opt_text o) t) (options_of sel_el w) with
       | Some o => (Ok tt, choose sel_el (opt_value o) w)
       | None =>
           (Raise (NoSuchElementException
                     ("Could not locate element with visible text: " +:+ t)), w)
       end.

(** [el.click()] *)
Definition click (el : clickable) : M world unit :=
  λ w, match el_action el with
       | OpenTab => (Ok tt, set_tab (Some (el_text el)) w)
       | ExportCsv =>
           match site_download web with
           | Some (delay, name) =>
               (Ok tt, set_files (files w) (pending w ++ [((clock w + delay)%N, name)]) w)
           | None => (Ok tt, w)
           end
       | Inert => (Ok tt, w)
       | Raises e => (Raise e, w)
       end.

(** *** get_select_options (l.47-50) *)

(** [(o.get_attribute("value") or "").strip()] is the stripped value. *)
Definition get_select_options (sel_el : control) (w : world) : list option_el :=
  filter (λ o, truthy (strip (opt_value o)) = true) (options_of sel_el w).

(** *** ensure_tab (l.52-60) *)

Definition ensure_tab (tab_text : string) : M world unit :=
  match find (λ t, String.eqb (lower (strip (el_text t))) (lower tab_text))
             (site_clickables web) with
  | Some t => run click t; effect (sleep 500)
  | None => ret tt
  end.

(** *** set_years (l.62-70) *)

Definition set_years (start_year end_year : Z) : M world unit :=
  run ensure_tab "Historical Indexes";
  do start_sel <- wait_for HistoricalStartYear 20;
  do end_sel <- wait_for HistoricalEndYear 20;
  run select_by_visible_text start_sel (str_int start_year);
  run effect (sleep 200);
  run select_by_visible_text end_sel (str_int end_year);
  effect (sleep 200).

(** *** rename_latest_download (l.85-100) *)

(** [for _ in range(retries): if src.exists(): break; time.sleep(1)] *)
Fixpoint poll (src : Path) (retries : nat) (w : world) : world :=
  match retries with
  | O => w
  | S k => if path_exists src w then w else poll src k (sleep 1000 w)
  end.

Definition rename_latest_download
    (tmp_name : string) (final_name : option string) (retries : nat) : M world Path :=
  let src := InDownloadDir tmp_name in
  run effect (poll src retries);
  do present <- read (path_exists src);
  if negb present
  then raise (RuntimeError "Export did not produce the expected CSV file.")
  else
    match final_name with
    | Some name =>
        if truthy name then
          let dst := InDownloadDir name in
          run effect (sleep 500);
          run path_replace src dst;
          ret dst
        else ret src
    | None => ret src
    end.

(** *** export_grid_history (l.102-128) *)

Definition export_grid_history (grid_id : string) (start_year end_year : Z)
  : M world Path :=
  run ensure_tab "Historical Indexes";
  do state_sel <- wait_for State 20;
  do county_sel <- wait_for County 20;
  do grid_sel <- wait_for GridId 20;
  run select_by_visible_text grid_sel grid_id;
  run effect (sleep 300);
  run set_years start_year end_year;
  let export_btns :=
    filter (λ b, str_contains "export to csv" (lower (el_text b)) = true)
           (site_clickables web) in
  match export_btns with
  | [] => raise (RuntimeError "Export to CSV button not found.")
  | b :: _ =>
      run click b;
      let final_name :=
        "grid_" +:+ grid_id +:+ "_" +:+ str_int start_year +:+ "_"
                +:+ str_int end_year +:+ ".csv" in
      do path <- rename_latest_download "HistoricalIndexes.csv" (Some final_name) 60;
      ret path
  end.

(** *** discover_all_grids (l.130-156) *)

(** The body of the innermost loop (l.146-149). *)
Definition collect_grids (all_grids : list string) (g : option_el) : list string :=
  let grid_val := strip (opt_value g) in
  if truthy grid_val then all_grids ++ [grid_val] else all_grids.

(** The body of the loop over the counties (l.142-149). *)
Definition walk_county (county_sel grid_sel : control)
    (all_grids : list string) (c : option_el) : M world (list string) :=
  run select_by_value county_sel (opt_value c);
  run effect (sleep 400);
  do grids <- read (get_select_options grid_sel);
  ret (fold_left collect_grids grids all_grids).

(** The body of the loop over the states (l.139-149). *)
Definition walk_state (state_sel county_sel grid_sel : control)
    (all_grids : list string) (s : option_el) : M world (list string) :=
  run select_by_value state_sel (opt_value s);
  run effect (sleep 400);
  do counties <- read (get_select_options county_sel);
  for_fold counties (walk_county county_sel grid_sel) all_grids.

(** The walk up to the de-duplication: the value of [all_grids] (l.132-149). *)
Definition discover_raw : M world (list string) :=
  run ensure_tab "Historical Indexes";
  do state_sel <- wait_for State 20;
  do county_sel <- wait_for County 20;
  do grid_sel <- wait_for GridId 20;
  do states <- read (get_select_options state_sel);
  for_fold states (walk_state state_sel county_sel grid_sel) [].

Definition discover_all_grids : M world (list string) :=
  do all_grids <- discover_raw;
  ret (dedup_ordered all_grids).

End Script.

(** ** Orchestrator (main) *)

(** The loop of [main] calls four collaborators: the Exporter, the Ledger's
    append, [print] and [time.sleep].  It is written once over any
    environment that provides them, and run by [main] on the script's own. *)
Class Collaborators (W : Type) := {
  co_export : string → Z → Z → M W Path;
  co_mark_completed : string → W → W;
  co_print : string → W → W;
  co_sleep : N → W → W
}.

Section Orchestrator.

Context {W : Type} (C : Collaborators W).

(** The [try] statement of the loop body (l.173-180). *)
Definition attempt (gid : string) : M W unit :=
  try_except
    (do path <- co_export gid START_YEAR END_YEAR;
     run effect (co_print ("Saved " +:+ path_name path));
     run effect (co_mark_completed gid);
     effect (co_sleep 1000))
    (λ e, effect (co_print ("[WARN] Grid " +:+ gid +:+ " failed: " +:+ exn_msg e))).

(** [for gid in grids: if gid in done: continue ...] (l.170-180) *)
Definition export_loop (done : gset string) (grids : list string) : M W unit :=
  for_each grids (λ gid, if decide (gid ∈ done) then ret tt else attempt gid).

End Orchestrator.

Section Main.

Context `{StrOps}.
Variable web : site.

Definition script : Collaborators world :=
  {| co_export := export_grid_history web;
     co_mark_completed := mark_completed;
     co_print := print;
     co_sleep := sleep |}.

(** [d.get(PRF_URL)]: a fresh page, nothing selected. *)
Definition load_page (w : world) : world :=
  set_selected (λ _, None) (set_tab None w).

(** [main] (l.158-180), with [driver_ctx] as the [try ... finally: d.quit()]
    it is.  The run is followed from a started session on a loaded page:
    reading the ledger, [make_driver()] and [d.get(PRF_URL)] are taken to
    succeed, and a run in which one of them raises ends there, before
    anything below. *)
Definition main : M world unit :=
  do done <- read get_completed;
  run effect (set_session true);
  try_finally
    (run effect load_page;
     run ensure_tab web "Historical Indexes";
     do grids <- discover_all_grids web;
     run effect (print ("Discovered " +:+ str_int (Z.of_nat (length grids))
                                      +:+ " unique Grid IDs."));
     export_loop script done grids)
    (set_session false).

End Main.

(** ** Recording collaborators

    To observe which collaborators the loop calls, with what and in which
    order, each collaborator is wrapped so that it notes its call in a log
    kept beside the environment and otherwise behaves as before. *)

Inductive event : Type :=
| Attempted (gid : string) (start_year end_year : Z) (r : result Path)
| Marked (gid : string).

Definition recording {W : Type} (C : Collaborators W) : Collaborators (W * list event) :=
  {| co_export gid y0 y1 :=
       λ '(w, log), let '(r, w') := co_export gid y0 y1 w in
                    (r, (w', log ++ [Attempted gid y0 y1 r]));
     co_mark_completed gid := λ '(w, log), (co_mark_completed gid w, log ++ [Marked gid]);
     co_print line := λ '(w, log), (co_print line w, log);
     co_sleep ms := λ '(w, log), (co_sleep ms w, log) |}.

(** The leaves for which the Exporter was invoked, in order of invocation. *)
Definition attempted (log : list event) : list string :=
  omap (λ ev, match ev with Attempted gid _ _ _ => Some gid | Marked _ => None end) log.

(** The leaves whose export returned a path, and those whose export raised. *)
Definition succeeded (log : list event) : list string :=
  omap (λ ev, match ev with Attempted gid _ _ (Ok _) => Some gid | _ => None end) log.
Definition failed (log : list event) : list string :=
  omap (λ ev, match ev with Attempted gid _ _ (Raise _) => Some gid | _ => None end) log.

(** The leaves appended to the Ledger, in order. *)
Definition marked (log : list event) : list string :=
  omap (λ ev, match ev with Marked gid => Some gid | Attempted _ _ _ _ => None end) log.

(** * Vocabulary of the properties *)

(** ** What the recording collaborators note *)

Section RecordedRun.

Context {W : Type} (C : Collaborators W).
Implicit Types (done : gset string) (grids : list string) (gid : string) (w : W).

(** What one attempt notes in the log. *)
Definition attempt_events gid w : list event :=
  match co_export gid START_YEAR END_YEAR w with
  | (Ok p, _) => [Attempted gid START_YEAR END_YEAR (Ok p); Marked gid]
  | (Raise e, _) => [Attempted gid START_YEAR END_YEAR (Raise e)]
  end.

(** What a whole run of the loop notes in the log. *)
Fixpoint loop_events done grids w : list event :=
  match grids with
  | [] => []
  | gid :: rest =>
      if decide (gid ∈ done) then loop_events done rest w
      else attempt_events gid w ++ loop_events done rest (attempt C gid w).2
  end.

End RecordedRun.

(** The line that [main] prints for an attempt once it is over. *)
Definition report_line (ev : event) : option string :=
  match ev with
  | Attempted gid _ _ (Ok path) => Some ("Saved " +:+ path_name path)
  | Attempted gid _ _ (Raise e) => Some ("[WARN] Grid " +:+ gid +:+ " failed: " +:+ exn_msg e)
  | Marked _ => None
  end.

(** ** Frames *)

(** The parts of the environment that no statement of the Exporter writes:
    the ledger, the standard output, the session, the State and County
    selections of the shared form, and what the file system refuses. *)
Definition export_frame (w w' : world) : Prop :=
  ledger w' = ledger w ∧ stdout w' = stdout w ∧ session w' = session w
  ∧ selected w' State = selected w State ∧ selected w' County = selected w County
  ∧ fs_refuses w' = fs_refuses w.

(** The discovery writes neither the ledger nor the standard output. *)
Definition quiet (w w' : world) : Prop :=
  ledger w' = ledger w ∧ stdout w' = stdout w.

(** The ledger file, when there is one, ends in a complete row (or is
    empty): what is appended to it starts a row of its own. *)
Definition ledger_terminated (w : world) : Prop :=
  ∀ f, ledger w = Some f → lf_tail f = None.

(** A computation keeps [R] when its final environment is related to its
    initial one, whether it returns or raises. *)
Definition keeps (R : relation world) {A} (m : M world A) : Prop :=
  ∀ w, R w (m w).2.

(** Every file of the directory, the fixed-name download apart, is still
    there afterwards. *)
Definition files_kept (w w' : world) : Prop :=
  ∀ name, name ≠ "HistoricalIndexes.csv" →
          name ∈ files w ∪ arrived w → name ∈ files w' ∪ arrived w'.

(** The file is not there, and the download in flight (if it is this file)
    is not written before the instant [limit]. *)
Definition absent_until (name : string) (limit : N) (w : world) : Prop :=
  (name ∉ files w) ∧ ∀ t, (t, name) ∈ pending w → (limit < t)%N.

(** ** The selection tree as the walk sees it *)

Section Tree.

Context `{StrOps}.
Variable web : site.

(** The options of a list that carry a value (the placeholder dropped). *)
Definition offered (opts : list option_el) : list option_el :=
  filter (λ o, truthy (strip (opt_value o)) = true) opts.

(** The leaf values read under State [s] and County [c]. *)
Definition branch_leaves (b : string * string) : list string :=
  fold_left collect_grids (offered (site_grids web b.1 b.2)) [].

(** The (State, County) pairs walked below the given State options, in order. *)
Definition branches_of (states : list option_el) : list (string * string) :=
  flat_map (λ s, map (λ c, (opt_value s, opt_value c))
                     (offered (site_counties web (opt_value s))))
           states.

Definition branches : list (string * string) := branches_of (offered (site_states web)).

Definition leaves_of (bs : list (string * string)) : list string :=
  flat_map branch_leaves bs.

(** The exception with which the driver refuses the click that [ensure_tab]
    makes for [tab_text], if it does: that of the first link or button
    carrying the text. *)
Definition tab_click_error (tab_text : string) : option exn :=
  match find (λ t, String.eqb (lower (strip (el_text t))) (lower tab_text))
             (site_clickables web) with
  | Some t => match el_action t with Raises e => Some e | _ => None end
  | None => None
  end.

(** Every State option that carries a value, and every County option that
    carries one under such a State, has it in a [value] attribute. *)
Definition walkable : Prop :=
  (∀ s, s ∈ offered (site_states web) → opt_attr s ≠ None)
  ∧ (∀ s c, s ∈ offered (site_states web) →
            c ∈ offered (site_counties web (opt_value s)) → opt_attr c ≠ None).

End Tree.

(** The summary that the specification asks of a run, counted on the log of
    the collaborators' calls. *)
Record summary := Summary {
  n_attempted : nat; n_skipped : nat; n_succeeded : nat; n_failed : nat
}.

Definition summary_of (done : gset string) (grids : list string) (log : list event)
  : summary :=
  {| n_attempted := length (attempted log);
     n_skipped := length (filter (λ gid, gid ∈ done) grids);
     n_succeeded := length (succeeded log);
     n_failed := length (failed log) |}.

(** ** The run of [main] *)

Section Run.

Context `{StrOps}.
Variable web : site.

(** The environment in which [main] starts the discovery. *)
Definition session_start (w : world) : world :=
  (ensure_tab web "Historical Indexes" (load_page (set_session true w))).2.

Definition discovered_line (grids : list string) : string :=
  "Discovered " +:+ str_int (Z.of_nat (length grids)) +:+ " unique Grid IDs.".

(** The loop of [main] with its collaborators observed, started as [main]
    starts it once the discovery has returned [grids] in [w1]. *)
Definition observed_loop (w : world) (grids : list string) (w1 : world)
  : result unit * (world * list event) :=
  export_loop (recording (script web)) (get_completed w) grids
              (print (discovered_line grids) w1, []).

(** The counts of a run of [main]; [None] when the discovery raises. *)
Definition observed_summary (w : world) : option summary :=
  match discover_all_grids web (session_start w) with
  | (Ok grids, w1) =>
      Some (summary_of (get_completed w) grids (observed_loop w grids w1).2.2)
  | (Raise _, _) => None
  end.

End Run.

(** * Examples *)

(** ** ASCII text: a concrete pair of [strip] and [lower] for the examples *)

Definition ascii_space (c : ascii) : bool :=
  let n := nat_of_ascii c in
  (Nat.leb 9 n && Nat.leb n 13) || (Nat.leb 28 n && Nat.leb n 32).

Fixpoint lstrip (s : string) : string :=
  match s with
  | String c rest => if ascii_space c then lstrip rest else s
  | EmptyString => EmptyString
  end.

Fixpoint rstrip (s : string) : string :=
  match s with
  | String c rest =>
      match rstrip rest with
      | EmptyString => if ascii_space c then EmptyString else String c EmptyString
      | r => String c r
      end
  | EmptyString => EmptyString
  end.

Definition ascii_lower (c : ascii) : ascii :=
  let n := nat_of_ascii c in
  if Nat.leb 65 n && Nat.leb n 90 then ascii_of_nat (n + 32) else c.

Fixpoint map_string (f : ascii → ascii) (s : string) : string :=
  match s with
  | String c rest => String (f c) (map_string f rest)
  | EmptyString => EmptyString
  end.

Definition ascii_text : StrOps :=
  {| strip s := rstrip (lstrip s); lower := map_string ascii_lower |}.

(** ** A small page for the examples: three states of one county each, the
    Grid list of the second never populated *)

Definition demo_page (download : option (N * string)) : site :=
  {| site_clickables :=
       [ Clickable "Grid Locator" OpenTab;
         Clickable " Historical Indexes " OpenTab;
         Clickable "Export to CSV" ExportCsv ];
     site_present := λ _, true;
     site_states :=
       [ OptionEl "Select State" (Some ""); OptionEl "Texas" (Some "48"); OptionEl "Nebraska" (Some "31");
         OptionEl "Kansas" (Some "20") ];
     site_counties := λ s,
       if String.eqb s "48" then [ OptionEl "Select County" (Some ""); OptionEl "Travis" (Some "453") ]
       else if String.eqb s "31" then [ OptionEl "Select County" (Some ""); OptionEl "Adams" (Some "001") ]
       else if String.eqb s "20" then [ OptionEl "Select County" (Some ""); OptionEl "Ford" (Some "057") ]
       else [];
     site_grids := λ s c,
       if String.eqb s "48" && String.eqb c "453"
       then [ OptionEl "Select Grid" (Some ""); OptionEl "14530" (Some "14530"); OptionEl "14531" (Some " 14531") ]
       else if String.eqb s "31" && String.eqb c "001"
       then [ OptionEl "Select Grid" (Some "") ]
       else if String.eqb s "20" && String.eqb c "057"
       then [ OptionEl "14531" (Some "14531"); OptionEl "20110" (Some "20110") ]
       else [];
     site_start_years := [ OptionEl "1940" (Some "1940"); OptionEl "1948" (Some "1948") ];
     site_end_years := [ OptionEl "2024" (Some "2024"); OptionEl "2025" (Some "2025") ];
     site_download := download |}.

(** The page whose export is written, under the expected name, 2.5 s after
    the click; and the page whose export never writes anything. *)
Definition demo_site : site := demo_page (Some (2500%N, "HistoricalIndexes.csv")).
Definition silent_site : site := demo_page None.

(** A download directory without subdirectories, on a file system whose
    names hold at most 255 bytes; and the [csv] module on text without
    quotes, delimiters or line breaks, where the appended field continues
    the last one. *)
Definition flat_directory (name : string) : option exn :=
  if str_contains "/" name then Some (FileNotFoundError name)
  else if Nat.ltb 255 (String.length name) then Some (OSError name)
  else None.

Definition plain_join (raw field : string) : list (list string) * option string :=
  ([[raw +:+ field]], None).

Definition fresh_world : world :=
  {| clock := 0; session := false; tab := None; selected := λ _, None;
     files := ∅; pending := []; ledger := None; stdout := [];
     fs_refuses := flat_directory; csv_join := plain_join |}.

(** The environment once the grids of [demo_site] have been discovered: the
    form is left on the last State and County walked. *)
Definition after_discovery : world :=
  (@discover_all_grids ascii_text demo_site fresh_world).2.

(** The leaves of [demo_site] and the environment in which [main], started
    in [fresh_world], has discovered them. *)
Definition demo_grids : list string := ["14530"; "14531"; "20110"].

Definition demo_discovered : world :=
  (@discover_all_grids ascii_text demo_site (@session_start ascii_text demo_site fresh_world)).2.

(** A second run: the ledger holds the two leaves the first run exported. *)
Definition second_run : world :=
  {| clock := 0; session := false; tab := None; selected := λ _, None;
     files := {[ "grid_14531_1940_2025.csv"; "grid_20110_1940_2025.csv" ]};
     pending := []; ledger := Some (LedgerFile [["14531"]; ["20110"]] None);
     stdout := []; fs_refuses := flat_directory; csv_join := plain_join |}.

(** The example page with a fourth State whose County list never
    populates, and the example page without its Grid select. *)
Definition sparse_site : site :=
  {| site_clickables := site_clickables demo_site;
     site_present := site_present demo_site;
     site_states := site_states demo_site ++ [ OptionEl "Ohio" (Some "39") ];
     site_counties := site_counties demo_site;
     site_grids := site_grids demo_site;
     site_start_years := site_start_years demo_site;
     site_end_years := site_end_years demo_site;
     site_download := site_download demo_site |}.

Definition gridless_site : site :=
  {| site_clickables := site_clickables demo_site;
     site_present := λ c, bool_decide (c ≠ GridId);
     site_states := site_states demo_site;
     site_counties := site_counties demo_site;
     site_grids := site_grids demo_site;
     site_start_years := site_start_years demo_site;
     site_end_years := site_end_years demo_site;
     site_download := site_download demo_site |}.

(** The example page with the County option of its second State written
    without a [value] attribute. *)
Definition attrless_site : site :=
  {| site_clickables := site_clickables demo_site;
     site_present := site_present demo_site;
     site_states := site_states demo_site;
     site_counties := λ s,
       if String.eqb s "31"
       then [ OptionEl "Select County" (Some ""); OptionEl "Adams" None ]
       else site_counties demo_site s;
     site_grids := site_grids demo_site;
     site_start_years := site_start_years demo_site;
     site_end_years := site_end_years demo_site;
     site_download := site_download demo_site |}.


(** * Properties *)

(** ** Enumerator: de-duplication *)

Section Dedup.

Implicit Types (l all_grids ordered : list string) (seen : gset string) (g : string).

Lemma dedup_ordered_snoc l g :
  dedup_ordered (l ++ [g]) =
  if decide (g ∈ dedup_ordered l) then dedup_ordered l else dedup_ordered l ++ [g].
Proof.
  unfold dedup_ordered. rewrite fold_left_app. simpl.
  assert (Hinv : ∀ x, x ∈ (fold_left dedup_step l (∅, [])).1
                      ↔ x ∈ (fold_left dedup_step l (∅, [])).2).
  { induction l as [|y l IH] using rev_ind; simpl.
    - intros x. set_solver.
    - intros x. rewrite fold_left_app. simpl.
      destruct (fold_left dedup_step l (∅, [])) as [seen ordered]. simpl in *.
      destruct (decide (y ∈ seen)); simpl; [apply IH|].
      rewrite elem_of_union, elem_of_singleton, elem_of_app, list_elem_of_singleton.
      rewrite IH. tauto. }
  destruct (fold_left dedup_step l (∅, [])) as [seen ordered]. simpl in *.
  destruct (decide (g ∈ seen)) as [Hin|Hout], (decide (g ∈ ordered)) as [Hin'|Hout'];
    simpl; try reflexivity.
  - apply Hinv in Hin. contradiction.
  - apply Hinv in Hin'. contradiction.
Qed.

Lemma dedup_ordered_nil : dedup_ordered [] = [].
Proof. reflexivity. Qed.

Lemma dedup_ordered_elem_of l g : g ∈ dedup_ordered l ↔ g ∈ l.
Proof.
  induction l as [|y l IH] using rev_ind; [reflexivity|].
  rewrite dedup_ordered_snoc.
  destruct (decide (y ∈ dedup_ordered l)) as [Hin|Hout].
  - rewrite elem_of_app, list_elem_of_singleton, IH.
    split; [tauto|]. intros [?| ->]; [assumption|]. by apply IH.
  - by rewrite !elem_of_app, IH.
Qed.

Lemma dedup_ordered_NoDup l : NoDup (dedup_ordered l).
Proof.
  induction l as [|y l IH] using rev_ind; [constructor|].
  rewrite dedup_ordered_snoc.
  destruct (decide (y ∈ dedup_ordered l)) as [Hin|Hout]; [assumption|].
  apply NoDup_app. split; [assumption|]. split.
  - intros x Hx Hy. apply list_elem_of_singleton in Hy. by subst.
  - apply NoDup_singleton.
Qed.

(** The value at position [i] of the output is the first occurrence of
    that value in the input, at some position [j], and what the output
    holds before [i] is the output for the input before [j]. *)
Lemma dedup_ordered_first_seen l i g :
  dedup_ordered l !! i = Some g →
  ∃ j, l !! j = Some g ∧ (g ∉ take j l) ∧ take i (dedup_ordered l) = dedup_ordered (take j l).
Proof.
  revert i g. induction l as [|y l IH] using rev_ind; intros i g Hi.
  - by rewrite dedup_ordered_nil in Hi.
  - rewrite dedup_ordered_snoc in *.
    assert (Hold : ∀ i, dedup_ordered l !! i = Some g →
              ∃ j, (l ++ [y]) !! j = Some g ∧ (g ∉ take j (l ++ [y]))
                   ∧ take i (dedup_ordered l) = dedup_ordered (take j (l ++ [y]))).
    { intros i' Hi'. destruct (IH _ _ Hi') as (j & Hj & Hfirst & Htake).
      pose proof (lookup_lt_Some _ _ _ Hj) as Hlt.
      exists j. rewrite lookup_app_l by assumption.
      rewrite take_app_le by lia. auto. }
    destruct (decide (y ∈ dedup_ordered l)) as [Hin|Hout]; [by apply Hold|].
    destruct (decide (i < length (dedup_ordered l))) as [Hlt|Hge].
    + rewrite lookup_app_l in Hi by assumption.
      destruct (Hold _ Hi) as (j & ? & ? & Htake). exists j.
      rewrite (take_app_le (dedup_ordered l)) by lia. auto.
    + rewrite lookup_app_r in Hi by lia.
      apply list_lookup_singleton_Some in Hi as [Hi ->].
      assert (i = length (dedup_ordered l)) as -> by lia.
      exists (length l). rewrite list_lookup_middle by reflexivity.
      rewrite !take_app_length. split; [reflexivity|]. split; [|reflexivity].
      by rewrite <- dedup_ordered_elem_of.
Qed.

End Dedup.

(** ** Ledger *)

Lemma get_completed_rows_snoc (rows : list (list string)) (row : list string) :
  fold_left add_row (rows ++ [row]) ∅ = add_row (fold_left add_row rows ∅) row.
Proof. by rewrite fold_left_app. Qed.

Lemma get_completed_mark (grid_id : string) (w : world) :
  ledger_terminated w →
  get_completed (mark_completed grid_id w) = {[ grid_id ]} ∪ get_completed w.
Proof.
  intros Hterm. unfold get_completed, mark_completed.
  destruct (ledger w) as [f|] eqn:Hfile; simpl.
  - rewrite (Hterm f Hfile). simpl. by rewrite get_completed_rows_snoc.
  - reflexivity.
Qed.

Lemma mark_completed_terminated (grid_id : string) (w : world) :
  ledger_terminated w → ledger_terminated (mark_completed grid_id w).
Proof.
  intros Hterm f. unfold mark_completed.
  destruct (ledger w) as [f0|] eqn:Hfile; simpl.
  - rewrite (Hterm f0 Hfile). simpl. by intros [= <-].
  - by intros [= <-].
Qed.

(** [mark_completed] writes the ledger and nothing else. *)
Lemma mark_completed_set_ledger (grid_id : string) (w : world) :
  ∃ l, mark_completed grid_id w = set_ledger l w.
Proof. unfold mark_completed. repeat case_match; eauto. Qed.

Lemma ledger_terminated_same_file (w1 w2 : world) :
  ledger w2 = ledger w1 → ledger_terminated w1 → ledger_terminated w2.
Proof. unfold ledger_terminated. by intros ->. Qed.

Lemma get_completed_no_file (w : world) : ledger w = None → get_completed w = ∅.
Proof. unfold get_completed. by intros ->. Qed.

Lemma get_completed_same_file (w1 w2 : world) :
  ledger w1 = ledger w2 → get_completed w1 = get_completed w2.
Proof. unfold get_completed. by intros ->. Qed.

(** ** Orchestrator: the loop against any collaborators *)

Section OrchestratorFacts.

Context {W : Type} (C : Collaborators W).
Implicit Types (done : gset string) (grids : list string) (gid : string) (w : W).

Lemma export_loop_nil done w : export_loop C done [] w = (Ok tt, w).
Proof. reflexivity. Qed.

Lemma export_loop_skip done gid grids w :
  gid ∈ done → export_loop C done (gid :: grids) w = export_loop C done grids w.
Proof.
  intros Hin. unfold export_loop, for_each. simpl. unfold bind at 1.
  by rewrite decide_True by assumption.
Qed.

(** The [try] statement swallows every exception of its body. *)
Lemma attempt_returns gid w : (attempt C gid w).1 = Ok tt.
Proof.
  unfold attempt, try_except, bind, effect.
  by destruct (co_export gid START_YEAR END_YEAR w) as [[p|e] w'].
Qed.

Lemma export_loop_attempt done gid grids w :
  gid ∉ done →
  export_loop C done (gid :: grids) w = export_loop C done grids (attempt C gid w).2.
Proof.
  intros Hout. unfold export_loop, for_each. simpl. unfold bind at 1.
  rewrite decide_False by assumption.
  pose proof (attempt_returns gid w) as Hret.
  destruct (attempt C gid w) as [r w']. simpl in *. by subst r.
Qed.

(** The loop itself never raises, whatever the Exporter does. *)
Lemma export_loop_returns done grids w : (export_loop C done grids w).1 = Ok tt.
Proof.
  revert w. induction grids as [|gid grids IH]; intros w; [reflexivity|].
  destruct (decide (gid ∈ done)).
  - by rewrite export_loop_skip.
  - by rewrite export_loop_attempt.
Qed.

End OrchestratorFacts.

Section RecordingFacts.

Context {W : Type} (C : Collaborators W).
Implicit Types (done : gset string) (grids : list string) (gid : string) (w : W).

Lemma attempt_recording gid w log :
  attempt (recording C) gid (w, log)
  = (Ok tt, ((attempt C gid w).2, log ++ attempt_events C gid w)).
Proof.
  unfold attempt, attempt_events, try_except, bind, effect. simpl.
  destruct (co_export gid START_YEAR END_YEAR w) as [[p|e] w']; simpl; [|reflexivity].
  by rewrite <- app_assoc.
Qed.

Lemma export_loop_recording done grids w log :
  export_loop (recording C) done grids (w, log)
  = (Ok tt, ((export_loop C done grids w).2, log ++ loop_events C done grids w)).
Proof.
  revert w log. induction grids as [|gid grids IH]; intros w log; cbn [loop_events].
  - by rewrite app_nil_r.
  - destruct (decide (gid ∈ done)).
    + rewrite !export_loop_skip by assumption. apply IH.
    + rewrite !export_loop_attempt by assumption.
      rewrite attempt_recording. simpl. rewrite IH. by rewrite app_assoc.
Qed.

Lemma attempted_app (l1 l2 : list event) : attempted (l1 ++ l2) = attempted l1 ++ attempted l2.
Proof. apply omap_app. Qed.
Lemma succeeded_app (l1 l2 : list event) : succeeded (l1 ++ l2) = succeeded l1 ++ succeeded l2.
Proof. apply omap_app. Qed.
Lemma marked_app (l1 l2 : list event) : marked (l1 ++ l2) = marked l1 ++ marked l2.
Proof. apply omap_app. Qed.
Lemma failed_app (l1 l2 : list event) : failed (l1 ++ l2) = failed l1 ++ failed l2.
Proof. apply omap_app. Qed.

Lemma attempted_attempt_events gid w : attempted (attempt_events C gid w) = [gid].
Proof.
  unfold attempt_events.
  by destruct (co_export gid START_YEAR END_YEAR w) as [[p|e] w'].
Qed.

Lemma marked_attempt_events gid w :
  marked (attempt_events C gid w) = succeeded (attempt_events C gid w).
Proof.
  unfold attempt_events.
  by destruct (co_export gid START_YEAR END_YEAR w) as [[p|e] w'].
Qed.

Lemma attempted_loop_events done grids w :
  attempted (loop_events C done grids w) = filter (λ gid, gid ∉ done) grids.
Proof.
  revert w. induction grids as [|gid grids IH]; intros w; simpl; [reflexivity|].
  destruct (decide (gid ∈ done)) as [Hin|Hout].
  - rewrite filter_cons_False by (intros Hn; by apply Hn). apply IH.
  - rewrite filter_cons_True by assumption.
    by rewrite attempted_app, attempted_attempt_events, IH.
Qed.

Lemma marked_loop_events done grids w :
  marked (loop_events C done grids w) = succeeded (loop_events C done grids w).
Proof.
  revert w. induction grids as [|gid grids IH]; intros w; simpl; [reflexivity|].
  destruct (decide (gid ∈ done)); [apply IH|].
  by rewrite marked_app, succeeded_app, marked_attempt_events, IH.
Qed.

End RecordingFacts.

(** ** Exporter: what an export leaves untouched *)

#[global] Instance export_frame_preorder : PreOrder export_frame.
Proof.
  split.
  - intros w. by repeat split.
  - intros w1 w2 w3 (?&?&?&?&?&?) (?&?&?&?&?&?). repeat split; congruence.
Qed.

#[global] Instance quiet_preorder : PreOrder quiet.
Proof.
  split.
  - intros w. by split.
  - intros w1 w2 w3 [? ?] [? ?]. split; congruence.
Qed.

Section Frames.

Variable R : relation world.
Context `{!PreOrder R}.

Lemma keeps_ret {A} (a : A) : keeps R (ret a).
Proof. intros w. reflexivity. Qed.

Lemma keeps_raise {A} (e : exn) : keeps R (@raise world A e).
Proof. intros w. reflexivity. Qed.

Lemma keeps_read {A} (f : world → A) : keeps R (read f).
Proof. intros w. reflexivity. Qed.

Lemma keeps_bind {A B} (m : M world A) (k : A → M world B) :
  keeps R m → (∀ a, keeps R (k a)) → keeps R (bind m k).
Proof.
  intros Hm Hk w. unfold bind. specialize (Hm w).
  destruct (m w) as [[a|e] w1]; simpl in *; [|assumption].
  etransitivity; [eassumption|apply Hk].
Qed.

Lemma keeps_effect (f : world → world) : (∀ w, R w (f w)) → keeps R (effect f).
Proof. intros Hf w. apply Hf. Qed.

Lemma keeps_for_fold {A B} (l : list A) (body : B → A → M world B) :
  (∀ acc x, keeps R (body acc x)) → ∀ acc, keeps R (for_fold l body acc).
Proof.
  intros Hbody. induction l as [|x l IH]; intros acc; simpl.
  - apply keeps_ret.
  - apply keeps_bind; [apply Hbody|apply IH].
Qed.

End Frames.

Lemma export_frame_refl w : export_frame w w.
Proof. reflexivity. Qed.

Lemma export_frame_trans w1 w2 w3 :
  export_frame w1 w2 → export_frame w2 w3 → export_frame w1 w3.
Proof. intros. by etransitivity. Qed.

Lemma sleep_frame ms w : export_frame w (sleep ms w).
Proof. by repeat split. Qed.

Lemma poll_frame src retries w : export_frame w (poll src retries w).
Proof.
  revert w. induction retries as [|k IH]; intros w; simpl.
  - apply export_frame_refl.
  - destruct (path_exists src w); [apply export_frame_refl|].
    eapply export_frame_trans; [apply sleep_frame|apply IH].
Qed.

Lemma keeps_path_replace src dst : keeps export_frame (path_replace src dst).
Proof.
  intros w. unfold path_replace.
  destruct (path_exists src w); [|by repeat split].
  destruct (fs_refuses w (rel_name dst)); by repeat split.
Qed.

Lemma keeps_rename_latest_download tmp_name final_name retries :
  keeps export_frame (rename_latest_download tmp_name final_name retries).
Proof.
  unfold rename_latest_download.
  apply (keeps_bind export_frame); [apply (keeps_effect export_frame), poll_frame|]. intros _.
  apply (keeps_bind export_frame); [apply (keeps_read export_frame)|]. intros present.
  destruct (negb present); [apply (keeps_raise export_frame)|].
  destruct final_name as [name|]; [|apply (keeps_ret export_frame)].
  destruct (truthy name); [|apply (keeps_ret export_frame)].
  apply (keeps_bind export_frame); [apply (keeps_effect export_frame), sleep_frame|]. intros _.
  apply (keeps_bind export_frame); [apply keeps_path_replace|]. intros _. apply (keeps_ret export_frame).
Qed.

Section ExporterFrame.

Context `{StrOps}.
Variable web : site.

Lemma keeps_click el : keeps export_frame (click web el).
Proof.
  intros w. unfold click. destruct (el_action el); try by repeat split.
  destruct (site_download web) as [[delay name]|]; by repeat split.
Qed.

Lemma keeps_ensure_tab tab_text : keeps export_frame (ensure_tab web tab_text).
Proof.
  unfold ensure_tab. destruct (find _ _); [|apply (keeps_ret export_frame)].
  apply (keeps_bind export_frame); [apply keeps_click|]. intros _.
  apply (keeps_effect export_frame), sleep_frame.
Qed.

Lemma keeps_wait_for c timeout : keeps export_frame (wait_for web c timeout).
Proof.
  intros w. unfold wait_for.
  destruct (site_present web c); simpl; [apply export_frame_refl|apply sleep_frame].
Qed.

(** A selection in a control other than State and County. *)
Lemma keeps_select_by_visible_text sel_el t :
  sel_el ≠ State → sel_el ≠ County → keeps export_frame (select_by_visible_text web sel_el t).
Proof.
  intros Hs Hc w. unfold select_by_visible_text.
  destruct (find _ _); simpl; [|apply export_frame_refl].
  unfold export_frame, choose. simpl.
  rewrite !decide_False by congruence. by repeat split.
Qed.

(** [wait_for] hands back the control that was asked for. *)
Lemma keeps_wait_for_bind {B} c timeout (k : control → M world B) :
  keeps export_frame (k c) → keeps export_frame (bind (wait_for web c timeout) k).
Proof.
  intros Hk w. unfold bind, wait_for.
  destruct (site_present web c); simpl; [apply Hk|apply sleep_frame].
Qed.

Lemma keeps_set_years start_year end_year : keeps export_frame (set_years web start_year end_year).
Proof.
  unfold set_years.
  apply (keeps_bind export_frame); [apply keeps_ensure_tab|]. intros _.
  do 2 apply keeps_wait_for_bind.
  apply (keeps_bind export_frame); [by apply keeps_select_by_visible_text|]. intros _.
  apply (keeps_bind export_frame); [apply (keeps_effect export_frame), sleep_frame|]. intros _.
  apply (keeps_bind export_frame); [by apply keeps_select_by_visible_text|]. intros _.
  apply (keeps_effect export_frame), sleep_frame.
Qed.

Lemma keeps_export_grid_history grid_id start_year end_year :
  keeps export_frame (export_grid_history web grid_id start_year end_year).
Proof.
  unfold export_grid_history.
  apply (keeps_bind export_frame); [apply keeps_ensure_tab|]. intros _.
  do 3 apply keeps_wait_for_bind.
  apply (keeps_bind export_frame); [by apply keeps_select_by_visible_text|]. intros _.
  apply (keeps_bind export_frame); [apply (keeps_effect export_frame), sleep_frame|]. intros _.
  apply (keeps_bind export_frame); [apply keeps_set_years|]. intros _.
  destruct (filter _ _) as [|b export_btns]; [apply (keeps_raise export_frame)|].
  apply (keeps_bind export_frame); [apply keeps_click|]. intros _.
  apply (keeps_bind export_frame); [apply keeps_rename_latest_download|]. intros path.
  apply (keeps_ret export_frame).
Qed.

End ExporterFrame.

(** ** Exporter: waiting for the download *)

Lemma bind_Ok {W A B} (m : M W A) (k : A → M W B) (w w' : W) (b : B) :
  bind m k w = (Ok b, w') → ∃ a w1, m w = (Ok a, w1) ∧ k a w1 = (Ok b, w').
Proof.
  unfold bind. destruct (m w) as [[a|e] w1]; intros Heq; [eauto|discriminate].
Qed.

Lemma sleep_sleep (a b : N) (w : world) : sleep b (sleep a w) = sleep (a + b) w.
Proof. unfold sleep, set_clock. simpl. f_equal. lia. Qed.

Lemma sleep_0 (w : world) : sleep 0 w = w.
Proof. destruct w. unfold sleep, set_clock. simpl. f_equal. lia. Qed.

Lemma absent_not_exists name limit w :
  absent_until name limit w → (clock w <= limit)%N →
  path_exists (InDownloadDir name) w = false.
Proof.
  intros [Hfiles Hpending] Hle. unfold path_exists, arrived. simpl.
  apply bool_decide_eq_false. rewrite elem_of_union. intros [Hin|Hin]; [done|].
  apply elem_of_list_to_set, list_elem_of_fmap in Hin as ([t name'] & Hname & Hin).
  apply list_elem_of_filter in Hin as [Harrived Hin].
  simpl in Hname. subst name'. unfold has_arrived in Harrived. simpl in Harrived.
  specialize (Hpending t Hin). lia.
Qed.

Lemma absent_sleep name limit ms w :
  absent_until name limit w → absent_until name limit (sleep ms w).
Proof. intros [? ?]. by split. Qed.

Lemma poll_absent name retries w :
  absent_until name (clock w + 1000 * N.of_nat retries) w →
  poll (InDownloadDir name) retries w = sleep (1000 * N.of_nat retries) w.
Proof.
  revert w. induction retries as [|k IH]; intros w Habs.
  - simpl. by rewrite sleep_0.
  - cbn [poll]. rewrite (absent_not_exists _ _ _ Habs) by lia.
    rewrite IH.
    + rewrite sleep_sleep. f_equal. lia.
    + apply absent_sleep. simpl.
      replace (clock w + 1000 + 1000 * N.of_nat k)%N
        with (clock w + 1000 * N.of_nat (S k))%N by lia.
      assumption.
Qed.

(** C8 (as amended): after the export was triggered the Exporter checks for
    the fixed-name file once per second, at most [retries] times (60 by
    default); when the file has not appeared by the end of that budget it
    raises RuntimeError("Export did not produce the expected CSV file."),
    having waited exactly [retries] seconds, and returns no path. *)
Theorem C8_poll_budget_then_runtime_error
    (tmp_name : string) (final_name : option string) (retries : nat) (w : world) :
  absent_until tmp_name (clock w + 1000 * N.of_nat retries) w →
  rename_latest_download tmp_name final_name retries w
  = (Raise (RuntimeError "Export did not produce the expected CSV file."),
     sleep (1000 * N.of_nat retries) w).
Proof.
  intros Habs. unfold rename_latest_download, bind, effect, read, raise.
  rewrite (poll_absent _ _ _ Habs).
  rewrite (absent_not_exists tmp_name (clock w + 1000 * N.of_nat retries)).
  - reflexivity.
  - by apply absent_sleep.
  - simpl. lia.
Qed.

Lemma C8_poll_budget_witness :
  rename_latest_download "HistoricalIndexes.csv" (Some "grid_14530_1940_2025.csv") 60
                         fresh_world
  = (Raise (RuntimeError "Export did not produce the expected CSV file."),
     sleep (1000 * N.of_nat 60) fresh_world).
Proof.
  apply (C8_poll_budget_then_runtime_error
           "HistoricalIndexes.csv" (Some "grid_14530_1940_2025.csv") 60 fresh_world).
  split; [apply not_elem_of_empty|]. simpl. intros t Ht. by apply elem_of_nil in Ht.
Defined.

Lemma rename_latest_download_Ok tmp_name name retries w p w' :
  truthy name = true →
  rename_latest_download tmp_name (Some name) retries w = (Ok p, w') →
  p = InDownloadDir name ∧ path_exists p w' = true.
Proof.
  intros Htruthy. unfold rename_latest_download. rewrite Htruthy.
  intros Hrun.
  apply bind_Ok in Hrun as (_ & w1 & _ & Hrun).
  apply bind_Ok in Hrun as (present & w2 & _ & Hrun).
  destruct (negb present); [discriminate|].
  apply bind_Ok in Hrun as (_ & w3 & _ & Hrun).
  apply bind_Ok in Hrun as (u & w4 & Hreplace & Hrun).
  injection Hrun as Hp Hw. subst p w4. split; [reflexivity|].
  unfold path_replace in Hreplace.
  destruct (path_exists (InDownloadDir tmp_name) w3); [|discriminate].
  destruct (fs_refuses _ _); [discriminate|].
  injection Hreplace as <-.
  unfold path_exists. simpl. apply bool_decide_eq_true. set_solver.
Qed.

(** ** Exporter: the artifact path and the form *)

Section ExporterFacts.

Context `{StrOps}.
Variable web : site.

(** C2 (as amended): whatever the state left by earlier runs, an export
    that succeeds for leaf [id] and years [(y0, y1)] returns the path
    DOWNLOAD_DIR / grid_{id}_{y0}_{y1}.csv, and the file is then on disk
    under that name. *)
Theorem C2_export_path_is_grid_id_years
    (grid_id : string) (start_year end_year : Z) (w w' : world) (p : Path) :
  export_grid_history web grid_id start_year end_year w = (Ok p, w') →
  p = InDownloadDir ("grid_" +:+ grid_id +:+ "_" +:+ str_int start_year +:+ "_"
                             +:+ str_int end_year +:+ ".csv")
  ∧ path_exists p w' = true.
Proof.
  unfold export_grid_history. intros Hrun.
  apply bind_Ok in Hrun as (_ & w1 & _ & Hrun).
  apply bind_Ok in Hrun as (state_sel & w2 & _ & Hrun).
  apply bind_Ok in Hrun as (county_sel & w3 & _ & Hrun).
  apply bind_Ok in Hrun as (grid_sel & w4 & _ & Hrun).
  apply bind_Ok in Hrun as (_ & w5 & _ & Hrun).
  apply bind_Ok in Hrun as (_ & w6 & _ & Hrun).
  apply bind_Ok in Hrun as (_ & w7 & _ & Hrun).
  destruct (filter _ _) as [|b export_btns]; [discriminate|].
  apply bind_Ok in Hrun as (_ & w8 & _ & Hrun).
  apply bind_Ok in Hrun as (path & w9 & Hrename & Hrun).
  injection Hrun as Hp Hw. subst path w9.
  by apply rename_latest_download_Ok in Hrename.
Qed.

(** An export never writes the State and County selections of the form
    (nor the ledger, the standard output or the session). *)
Lemma export_keeps_parent_selection grid_id start_year end_year w :
  let w' := (export_grid_history web grid_id start_year end_year w).2 in
  selected w' State = selected w State ∧ selected w' County = selected w County.
Proof.
  destruct (keeps_export_grid_history web grid_id start_year end_year w)
    as (_ & _ & _ & Hstate & Hcounty & _).
  by split.
Qed.

End ExporterFacts.

Lemma C2_export_path_witness :
  InDownloadDir "grid_20110_1940_2025.csv"
  = InDownloadDir ("grid_" +:+ "20110" +:+ "_" +:+ str_int 1940 +:+ "_"
                           +:+ str_int 2025 +:+ ".csv")
  ∧ path_exists (InDownloadDir "grid_20110_1940_2025.csv")
      (@export_grid_history ascii_text demo_site "20110" 1940 2025 after_discovery).2
    = true.
Proof.
  apply (@C2_export_path_is_grid_id_years ascii_text demo_site "20110" 1940 2025
           after_discovery).
  vm_compute. reflexivity.
Defined.

(** The claim C2 as stated: the path is not [leaf-{id}-{y0}-{y1}]. *)
Lemma C2_counterexample :
  (@export_grid_history ascii_text demo_site "20110" 1940 2025 after_discovery).1
  = Ok (InDownloadDir "grid_20110_1940_2025.csv")
  ∧ InDownloadDir "grid_20110_1940_2025.csv" ≠ InDownloadDir "leaf-20110-1940-2025".
Proof. split; [by vm_compute|discriminate]. Qed.

(** The claim C8 as stated: the error raised when the file never appears is
    a plain RuntimeError, the class also raised when the export button is
    missing, not an ArtifactTimeoutError. *)
Lemma C8_counterexample :
  ∃ e, (@export_grid_history ascii_text silent_site "20110" 1940 2025 after_discovery).1
       = Raise e
       ∧ exn_class e = "RuntimeError" ∧ exn_class e ≠ "ArtifactTimeoutError".
Proof.
  exists (RuntimeError "Export did not produce the expected CSV file.").
  split; [by vm_compute|]. split; [reflexivity|discriminate].
Qed.

(** C1 (the code departs from it): after the discovery of [demo_site] the
    form is on State 20, County 057.  Exporting grid 14530, a leaf of State 48
    and County 453, selects neither of them: only the GridId control is used,
    under the parents left in the form, where this leaf is not offered; the
    export raises and the parents are still 20 and 057 afterwards. *)
Theorem C1_export_reselects_only_the_leaf :
  selected after_discovery State = Some "20"
  ∧ selected after_discovery County = Some "057"
  ∧ (∃ o, o ∈ site_grids demo_site "48" "453" ∧ opt_text o = "14530")
  ∧ let export := @export_grid_history ascii_text demo_site "14530" START_YEAR END_YEAR
                    after_discovery in
    (∃ e, export.1 = Raise e ∧ exn_class e = "NoSuchElementException")
    ∧ selected export.2 State = Some "20"
    ∧ selected export.2 County = Some "057".
Proof.
  split; [by vm_compute|]. split; [by vm_compute|]. split.
  - exists (OptionEl "14530" (Some "14530")). split; [|reflexivity].
        vm_compute. apply list_elem_of_further, list_elem_of_here.
  - split; [|by vm_compute].
    exists (NoSuchElementException "Could not locate element with visible text: 14530").
    by vm_compute.
Qed.

(** ** Enumerator: the walk over the selection tree *)

Section EnumeratorFacts.

Context `{StrOps}.
Variable web : site.

Lemma collect_grids_acc (grids : list option_el) (acc : list string) :
  fold_left collect_grids grids acc = acc ++ fold_left collect_grids grids [].
Proof.
  revert acc. induction grids as [|g grids IH]; intros acc; simpl.
  - by rewrite app_nil_r.
  - rewrite IH. rewrite (IH (collect_grids [] g)).
    unfold collect_grids. destruct (truthy _); simpl.
    + by rewrite <- app_assoc.
    + reflexivity.
Qed.

(** The first link or button carrying the tab text decides what
    [ensure_tab] does, whatever the environment. *)
Lemma ensure_tab_raises (tab_text : string) (e : exn) (w : world) :
  tab_click_error web tab_text = Some e → ensure_tab web tab_text w = (Raise e, w).
Proof.
  unfold tab_click_error, ensure_tab. destruct (find _ _) as [t|]; [|discriminate].
  unfold bind, click. destruct (el_action t); try discriminate. by intros [= ->].
Qed.

Lemma ensure_tab_returns (tab_text : string) (w : world) :
  tab_click_error web tab_text = None → (ensure_tab web tab_text w).1 = Ok tt.
Proof.
  unfold tab_click_error, ensure_tab. destruct (find _ _) as [t|]; [|reflexivity].
  unfold bind, click, effect. destruct (el_action t); try discriminate; intros _.
  - reflexivity.
  - by destruct (site_download web) as [[delay name]|].
  - reflexivity.
Qed.

(** [select_by_value] leaves the value it was given in the form. *)
Lemma select_by_value_Ok (sel_el : control) (v : string) (w w' : world) (u : unit) :
  select_by_value web sel_el v w = (Ok u, w') → w' = choose sel_el v w.
Proof.
  unfold select_by_value.
  destruct (find _ _) as [o|] eqn:Hfind; [|discriminate].
  apply find_some in Hfind as [_ Hattr]. apply bool_decide_eq_true in Hattr.
  intros [= _ <-]. unfold opt_value. by rewrite Hattr.
Qed.

(** It finds every option of the list that has a [value] attribute. *)
Lemma select_by_value_returns (sel_el : control) (o : option_el) (w : world) :
  o ∈ options_of web sel_el w → opt_attr o ≠ None →
  select_by_value web sel_el (opt_value o) w = (Ok tt, choose sel_el (opt_value o) w).
Proof.
  intros Hin Hattr.
  destruct (select_by_value web sel_el (opt_value o) w) as [[[]|e] w'] eqn:Hrun.
  - by rewrite (select_by_value_Ok _ _ _ _ _ Hrun).
  - exfalso. unfold select_by_value in Hrun.
    destruct (find _ _) as [o'|] eqn:Hfind; [discriminate|].
    pose proof (find_none _ _ Hfind o) as Hnone. simpl in Hnone.
    rewrite bool_decide_eq_false in Hnone. apply Hnone; [by apply list_elem_of_In|].
    unfold opt_value. destruct (opt_attr o); [reflexivity|contradiction].
Qed.

(** One County of the walk, when its selection succeeds. *)
Lemma walk_county_Ok (sv : string) (acc : list string) (c : option_el)
    (w w' : world) (r : list string) :
  selected w State = Some sv →
  walk_county web County GridId acc c w = (Ok r, w') →
  r = acc ++ branch_leaves web (sv, opt_value c)
  ∧ w' = sleep 400 (choose County (opt_value c) w).
Proof.
  intros Hstate Hrun. unfold walk_county in Hrun.
  apply bind_Ok in Hrun as (u & w1 & Hsel & Hrun).
  apply select_by_value_Ok in Hsel. subst w1.
  unfold bind, effect, read, ret in Hrun. injection Hrun as <- <-.
  split; [|reflexivity].
  rewrite collect_grids_acc. f_equal.
  unfold branch_leaves, get_select_options, offered.
  cbn [options_of selected choose set_selected sleep set_clock fst snd].
  rewrite decide_False by discriminate. rewrite decide_True by reflexivity.
  by rewrite Hstate.
Qed.

Lemma walk_county_returns (sv : string) (acc : list string) (c : option_el) (w : world) :
  selected w State = Some sv → c ∈ site_counties web sv → opt_attr c ≠ None →
  ∃ r w', walk_county web County GridId acc c w = (Ok r, w').
Proof.
  intros Hstate Hin Hattr. unfold walk_county, bind at 1.
  rewrite select_by_value_returns; [|by cbn [options_of]; rewrite Hstate|assumption].
  unfold bind, effect, read, ret. eauto.
Qed.

Lemma walk_counties_Ok (sv : string) (counties : list option_el) :
  ∀ (acc : list string) (w w' : world) (r : list string),
  selected w State = Some sv →
  for_fold counties (walk_county web County GridId) acc w = (Ok r, w') →
  r = acc ++ leaves_of web (map (λ c, (sv, opt_value c)) counties)
  ∧ selected w' State = Some sv
  ∧ selected w' County
    = match last counties with Some c => Some (opt_value c) | None => selected w County end.
Proof.
  induction counties as [|c counties IH]; intros acc w w' r Hstate Hrun.
  - injection Hrun as <- <-. by rewrite app_nil_r.
  - cbn [for_fold] in Hrun. apply bind_Ok in Hrun as (r1 & w1 & Hone & Hrun).
    destruct (walk_county_Ok sv acc c w w1 r1 Hstate Hone) as (-> & ->).
    apply IH in Hrun as (-> & Hstate' & Hcounty').
    2:{ cbn [selected choose set_selected sleep set_clock].
        by rewrite decide_False by discriminate. }
    split; [|split; [assumption|]].
    + unfold leaves_of. simpl. by rewrite app_assoc.
    + rewrite Hcounty', last_cons. destruct (last counties); [reflexivity|].
      cbn [selected choose set_selected sleep set_clock].
      by rewrite decide_True by reflexivity.
Qed.

Lemma walk_counties_returns (sv : string) (counties : list option_el) :
  ∀ (acc : list string) (w : world),
  selected w State = Some sv →
  (∀ c, c ∈ counties → c ∈ site_counties web sv ∧ opt_attr c ≠ None) →
  ∃ r w', for_fold counties (walk_county web County GridId) acc w = (Ok r, w').
Proof.
  induction counties as [|c counties IH]; intros acc w Hstate Hall.
  - by exists acc, w.
  - cbn [for_fold]. unfold bind at 1.
    destruct (Hall c) as [Hin Hattr]; [left|].
    destruct (walk_county_returns sv acc c w Hstate Hin Hattr) as (r1 & w1 & Hone).
    rewrite Hone. apply IH.
    + apply (walk_county_Ok sv) in Hone as [_ ->]; [|assumption].
      cbn [selected choose set_selected sleep set_clock].
      by rewrite decide_False by discriminate.
    + intros c' Hc'. apply Hall. by right.
Qed.

(** One State of the walk, when its selections succeed. *)
Lemma walk_state_Ok (acc : list string) (s : option_el) (w w' : world) (r : list string) :
  walk_state web State County GridId acc s w = (Ok r, w') →
  r = acc ++ leaves_of web (branches_of web [s])
  ∧ selected w' State = Some (opt_value s)
  ∧ selected w' County
    = match last (offered (site_counties web (opt_value s))) with
      | Some c => Some (opt_value c)
      | None => selected w County
      end.
Proof.
  intros Hrun. unfold walk_state in Hrun.
  apply bind_Ok in Hrun as (u & w1 & Hsel & Hrun).
  apply select_by_value_Ok in Hsel. subst w1.
  unfold bind at 1, effect in Hrun. unfold bind at 1, read in Hrun.
  assert (Hstate : selected (sleep 400 (choose State (opt_value s) w)) State
                   = Some (opt_value s)).
  { cbn [selected choose set_selected sleep set_clock]. by rewrite decide_True by reflexivity. }
  apply (walk_counties_Ok (opt_value s)) in Hrun as (-> & Hstate' & Hcounty'); [|exact Hstate].
  unfold get_select_options in Hcounty' |- *. cbn [options_of] in Hcounty' |- *.
  rewrite Hstate in Hcounty' |- *.
  split; [|split; [assumption|]].
  - unfold branches_of. simpl. by rewrite app_nil_r.
  - rewrite Hcounty'. unfold offered. destruct (last _); [reflexivity|].
    cbn [selected choose set_selected sleep set_clock].
    by rewrite decide_False by discriminate.
Qed.

Lemma walk_state_returns (acc : list string) (s : option_el) (w : world) :
  s ∈ site_states web → opt_attr s ≠ None →
  (∀ c, c ∈ offered (site_counties web (opt_value s)) → opt_attr c ≠ None) →
  ∃ r w', walk_state web State County GridId acc s w = (Ok r, w').
Proof.
  intros Hin Hattr Hcounties. unfold walk_state, bind at 1.
  rewrite select_by_value_returns by assumption.
  unfold bind at 1, effect. unfold bind at 1, read.
  assert (Hstate : selected (sleep 400 (choose State (opt_value s) w)) State
                   = Some (opt_value s)).
  { cbn [selected choose set_selected sleep set_clock]. by rewrite decide_True by reflexivity. }
  apply (walk_counties_returns (opt_value s)); [exact Hstate|].
  unfold get_select_options. cbn [options_of]. rewrite Hstate.
  intros c Hc. split; [|by apply Hcounties].
  apply list_elem_of_filter in Hc as [_ Hc]. exact Hc.
Qed.

Lemma walk_states_Ok (states : list option_el) :
  ∀ (acc : list string) (w w' : world) (r : list string),
  for_fold states (walk_state web State County GridId) acc w = (Ok r, w') →
  r = acc ++ leaves_of web (branches_of web states).
Proof.
  induction states as [|s states IH]; intros acc w w' r Hrun.
  - injection Hrun as <- <-. by rewrite app_nil_r.
  - cbn [for_fold] in Hrun. apply bind_Ok in Hrun as (r1 & w1 & Hone & Hrun).
    apply walk_state_Ok in Hone as (-> & _). apply IH in Hrun as ->.
    rewrite <- app_assoc. f_equal.
    unfold leaves_of, branches_of. simpl. rewrite app_nil_r.
    by rewrite flat_map_app.
Qed.

Lemma walk_states_returns (states : list option_el) :
  ∀ (acc : list string) (w : world),
  (∀ s, s ∈ states →
        s ∈ site_states web ∧ opt_attr s ≠ None
        ∧ ∀ c, c ∈ offered (site_counties web (opt_value s)) → opt_attr c ≠ None) →
  ∃ r w', for_fold states (walk_state web State County GridId) acc w = (Ok r, w').
Proof.
  induction states as [|s states IH]; intros acc w Hall.
  - by exists acc, w.
  - cbn [for_fold]. unfold bind at 1.
    destruct (Hall s) as (Hin & Hattr & Hcounties); [left|].
    destruct (walk_state_returns acc s w Hin Hattr Hcounties) as (r1 & w1 & ->).
    apply IH. intros s' Hs'. apply Hall. by right.
Qed.

(** When the walk returns, it has read the leaves of every branch, in
    order. *)
Lemma discover_raw_Ok (w w' : world) (raw : list string) :
  discover_raw web w = (Ok raw, w') → raw = leaves_of web (branches web).
Proof.
  intros Hrun. unfold discover_raw in Hrun.
  apply bind_Ok in Hrun as (u & w0 & _ & Hrun).
  apply bind_Ok in Hrun as (state_sel & w1 & Hs & Hrun).
  apply bind_Ok in Hrun as (county_sel & w2 & Hc & Hrun).
  apply bind_Ok in Hrun as (grid_sel & w3 & Hg & Hrun).
  unfold wait_for in Hs, Hc, Hg.
  destruct (site_present web State); [|discriminate].
  destruct (site_present web County); [|discriminate].
  destruct (site_present web GridId); [|discriminate].
  injection Hs as <- <-. injection Hc as <- <-. injection Hg as <- <-.
  unfold bind at 1, read in Hrun.
  by apply walk_states_Ok in Hrun.
Qed.

(** With the three selects on the page, a tab click that the driver does
    not refuse and the values of the options walked in [value] attributes,
    the walk completes. *)
Lemma discover_raw_spec (w : world) :
  site_present web State = true → site_present web County = true →
  site_present web GridId = true →
  tab_click_error web "Historical Indexes" = None →
  walkable web →
  ∃ w', discover_raw web w = (Ok (leaves_of web (branches web)), w').
Proof.
  intros Hs Hc Hg Htab [Hstates Hcounties].
  destruct (discover_raw web w) as [[raw|e] w'] eqn:Hrun.
  - exists w'. by rewrite (discover_raw_Ok _ _ _ Hrun).
  - exfalso. unfold discover_raw, bind at 1 in Hrun.
    pose proof (ensure_tab_returns "Historical Indexes" w Htab) as Hret.
    destruct (ensure_tab web "Historical Indexes" w) as [[[]|e0] w0]; [|discriminate].
    unfold bind, wait_for, read in Hrun. rewrite Hs, Hc, Hg in Hrun.
    destruct (walk_states_returns (get_select_options web State w0) [] w0) as (r & w2 & Hwalk).
    { intros s Hin. split; [|split].
      - apply list_elem_of_filter in Hin as [_ Hin]. exact Hin.
      - by apply Hstates.
      - intros c Hin'. by apply (Hcounties s). }
    rewrite Hwalk in Hrun. discriminate.
Qed.

(** Without one of the three selects on the page the discovery raises
    before any branch is walked: [wait_for] gives up after its 20 seconds and
    nothing in [discover_all_grids] or [main] catches the exception (unless
    the click on the tab was refused before, with an exception of its own). *)
Lemma discover_aborts_without_select (w : world) :
  site_present web State && site_present web County && site_present web GridId = false →
  ∃ w', discover_all_grids web w
        = (Raise (default (TimeoutException "") (tab_click_error web "Historical Indexes")),
           w').
Proof.
  intros Habsent. unfold discover_all_grids, discover_raw, bind at 1 2.
  destruct (tab_click_error web "Historical Indexes") as [e|] eqn:Htab.
  { rewrite (ensure_tab_raises _ _ _ Htab). eauto. }
  pose proof (ensure_tab_returns "Historical Indexes" w Htab) as Hret.
  destruct (ensure_tab web "Historical Indexes" w) as [[[]|e0] w0]; [|discriminate].
  unfold bind, wait_for, read. simpl.
  destruct (site_present web State); [|eauto].
  destruct (site_present web County); [|eauto].
  destruct (site_present web GridId); [discriminate|eauto].
Qed.

End EnumeratorFacts.

Section EnumeratorClaims.

Context `{StrOps}.
Variable web : site.

(** C6: whatever raw list of leaf values the walk has read, repeats under
    several parents included, the Enumerator returns each value once
    ([NoDup], same members), and in the order of first discovery: the value at
    a position of the output first occurs at some position [j] of the raw
    list, and the values output before it are those read before [j]. *)
Theorem C6_each_leaf_once_in_first_seen_order (w w' : world) (raw : list string) :
  discover_raw web w = (Ok raw, w') →
  ∃ out, discover_all_grids web w = (Ok out, w')
    ∧ NoDup out
    ∧ (∀ g, g ∈ out ↔ g ∈ raw)
    ∧ (∀ i g, out !! i = Some g →
         ∃ j, raw !! j = Some g ∧ (g ∉ take j raw)
              ∧ ∀ x, x ∈ take i out ↔ x ∈ take j raw).
Proof.
  intros Hraw. exists (dedup_ordered raw).
  split; [unfold discover_all_grids, bind; by rewrite Hraw|].
  split; [apply dedup_ordered_NoDup|].
  split; [apply dedup_ordered_elem_of|].
  intros i g Hi.
  destruct (dedup_ordered_first_seen _ _ _ Hi) as (j & Hj & Hfirst & Htake).
  exists j. split; [assumption|]. split; [assumption|].
  intros x. rewrite Htake. apply dedup_ordered_elem_of.
Qed.

End EnumeratorClaims.

Lemma C6_first_seen_witness :
  ∃ out, @discover_all_grids ascii_text demo_site fresh_world = (Ok out, after_discovery)
    ∧ NoDup out
    ∧ (∀ g, g ∈ out ↔ g ∈ ["14530"; "14531"; "14531"; "20110"])
    ∧ (∀ i g, out !! i = Some g →
         ∃ j, ["14530"; "14531"; "14531"; "20110"] !! j = Some g
              ∧ (g ∉ take j ["14530"; "14531"; "14531"; "20110"])
              ∧ ∀ x, x ∈ take i out ↔ x ∈ take j ["14530"; "14531"; "14531"; "20110"]).
Proof.
  apply (@C6_each_leaf_once_in_first_seen_order ascii_text demo_site fresh_world).
  vm_compute. reflexivity.
Defined.

(** ** Orchestrator: the run of the script *)

Section MainFacts.

Context `{StrOps}.
Variable web : site.

(** Both [main] and the discovery open the tab first, with the same
    outcome: a click that the driver refuses ends [main] as it would end
    the discovery. *)
Lemma discover_tab_refused (e : exn) (w : world) :
  tab_click_error web "Historical Indexes" = Some e →
  discover_all_grids web w = (Raise e, w).
Proof.
  intros Htab. unfold discover_all_grids, discover_raw, bind at 1 2.
  by rewrite (ensure_tab_raises _ _ _ _ Htab).
Qed.

(** [main] is the discovery followed by the loop, then [d.quit()]. *)
Lemma main_unfold (w : world) :
  main web w =
  match discover_all_grids web (session_start web w) with
  | (Ok grids, w1) =>
      let out := export_loop (script web) (get_completed w) grids
                             (print (discovered_line grids) w1) in
      (out.1, set_session false out.2)
  | (Raise e, w1) => (Raise e, set_session false w1)
  end.
Proof.
  unfold main, session_start, try_finally, bind at 1 2, read, effect.
  unfold bind at 1. unfold bind at 1.
  destruct (tab_click_error web "Historical Indexes") as [e|] eqn:Htab.
  - rewrite (ensure_tab_raises _ _ _ _ Htab). cbn [snd].
    by rewrite (discover_tab_refused e _ Htab).
  - pose proof (ensure_tab_returns web "Historical Indexes"
                  (load_page (set_session true w)) Htab) as Hret.
    destruct (ensure_tab web _ _) as [r w0]. simpl in Hret. subst r. cbn [snd].
    unfold bind.
    destruct (discover_all_grids web w0) as [[grids|e] w1]; [|reflexivity].
    fold (discovered_line grids).
    by destruct (export_loop _ _ _ _).
Qed.

(** One attempt of the script: the line it prints and the ledger after it. *)
Lemma attempt_script_stdout gid w :
  stdout (attempt (script web) gid w).2
  = stdout w ++ omap report_line (attempt_events (script web) gid w).
Proof.
  unfold attempt, attempt_events, try_except, bind, effect. simpl.
  destruct (keeps_export_grid_history web gid START_YEAR END_YEAR w) as (_ & Hout & _).
  destruct (export_grid_history web gid START_YEAR END_YEAR w) as [[p|e] w1];
    simpl in *; [|by rewrite Hout].
  destruct (mark_completed_set_ledger gid (print ("Saved " +:+ path_name p) w1)) as [l ->].
  simpl. by rewrite Hout.
Qed.

Lemma attempt_script_ledger gid w :
  ledger_terminated w →
  ledger_terminated (attempt (script web) gid w).2
  ∧ get_completed (attempt (script web) gid w).2
    = get_completed w ∪ list_to_set (succeeded (attempt_events (script web) gid w)).
Proof.
  intros Hterm.
  unfold attempt, attempt_events, try_except, bind, effect. simpl.
  destruct (keeps_export_grid_history web gid START_YEAR END_YEAR w) as (Hledger & _).
  destruct (export_grid_history web gid START_YEAR END_YEAR w) as [[p|e] w1]; simpl in *.
  - assert (Hterm1 : ledger_terminated (print ("Saved " +:+ path_name p) w1))
      by by apply (ledger_terminated_same_file w).
    split.
    + apply (ledger_terminated_same_file (mark_completed gid (print ("Saved " +:+ path_name p) w1)));
        [reflexivity|].
      by apply mark_completed_terminated.
    + rewrite (get_completed_same_file _ (mark_completed gid (print ("Saved " +:+ path_name p) w1)))
        by reflexivity.
      rewrite get_completed_mark by exact Hterm1.
      rewrite (get_completed_same_file _ w) by exact Hledger.
      rewrite (right_id_L ∅ (∪)). apply (comm_L (∪)).
  - split; [by apply (ledger_terminated_same_file w)|].
    rewrite (get_completed_same_file _ w) by assumption.
    by rewrite (right_id_L ∅ (∪)).
Qed.

Lemma loop_script_stdout done grids w :
  stdout (export_loop (script web) done grids w).2
  = stdout w ++ omap report_line (loop_events (script web) done grids w).
Proof.
  revert w. induction grids as [|gid grids IH]; intros w; cbn [loop_events].
  - simpl. by rewrite app_nil_r.
  - destruct (decide (gid ∈ done)).
    + rewrite export_loop_skip by assumption. apply IH.
    + rewrite export_loop_attempt by assumption.
      rewrite IH, attempt_script_stdout, omap_app. by rewrite app_assoc.
Qed.

Lemma loop_script_ledger done grids w :
  ledger_terminated w →
  get_completed (export_loop (script web) done grids w).2
  = get_completed w ∪ list_to_set (succeeded (loop_events (script web) done grids w)).
Proof.
  revert w. induction grids as [|gid grids IH]; intros w Hterm; cbn [loop_events].
  - simpl. by rewrite (right_id_L ∅ (∪)).
  - destruct (decide (gid ∈ done)).
    + rewrite export_loop_skip by assumption. by apply IH.
    + rewrite export_loop_attempt by assumption.
      destruct (attempt_script_ledger gid w Hterm) as [Hterm' Hset].
      rewrite IH by exact Hterm'.
      rewrite Hset, succeeded_app, list_to_set_app_L.
      by rewrite (assoc_L (∪)).
Qed.

End MainFacts.

(** ** The discovery and the start of the session print nothing *)

Section Quiet.

Context `{StrOps}.
Variable web : site.

Lemma click_quiet el : keeps quiet (click web el).
Proof.
  intros w. unfold click. destruct (el_action el); try by split.
  destruct (site_download web) as [[delay name]|]; by split.
Qed.

Lemma sleep_quiet ms w : quiet w (sleep ms w).
Proof. by split. Qed.

Lemma ensure_tab_quiet tab_text : keeps quiet (ensure_tab web tab_text).
Proof.
  unfold ensure_tab. destruct (find _ _); [|apply (keeps_ret quiet)].
  apply (keeps_bind quiet); [apply click_quiet|]. intros _.
  apply (keeps_effect quiet), sleep_quiet.
Qed.

Lemma wait_for_quiet c timeout : keeps quiet (wait_for web c timeout).
Proof. intros w. unfold wait_for. destruct (site_present web c); by split. Qed.

Lemma select_by_value_quiet sel_el v : keeps quiet (select_by_value web sel_el v).
Proof. intros w. unfold select_by_value. destruct (find _ _); by split. Qed.

Lemma discover_all_grids_quiet : keeps quiet (discover_all_grids web).
Proof.
  unfold discover_all_grids, discover_raw.
  apply (keeps_bind quiet); [|intros; apply (keeps_ret quiet)].
  apply (keeps_bind quiet); [apply ensure_tab_quiet|]. intros _.
  apply (keeps_bind quiet); [apply wait_for_quiet|]. intros state_sel.
  apply (keeps_bind quiet); [apply wait_for_quiet|]. intros county_sel.
  apply (keeps_bind quiet); [apply wait_for_quiet|]. intros grid_sel.
  apply (keeps_bind quiet); [apply (keeps_read quiet)|]. intros states.
  apply (keeps_for_fold quiet). intros acc s. unfold walk_state.
  apply (keeps_bind quiet); [apply select_by_value_quiet|]. intros _.
  apply (keeps_bind quiet); [apply (keeps_effect quiet), sleep_quiet|]. intros _.
  apply (keeps_bind quiet); [apply (keeps_read quiet)|]. intros counties.
  apply (keeps_for_fold quiet). intros acc' c. unfold walk_county.
  apply (keeps_bind quiet); [apply select_by_value_quiet|]. intros _.
  apply (keeps_bind quiet); [apply (keeps_effect quiet), sleep_quiet|]. intros _.
  apply (keeps_bind quiet); [apply (keeps_read quiet)|]. intros grids.
  apply (keeps_ret quiet).
Qed.

Lemma session_start_quiet w : quiet w (session_start web w).
Proof.
  unfold session_start.
  destruct (ensure_tab_quiet "Historical Indexes" (load_page (set_session true w))).
  by split.
Qed.

(** What [main] has read and printed when the loop starts. *)
Lemma discovery_quiet w grids w1 :
  discover_all_grids web (session_start web w) = (Ok grids, w1) →
  ledger w1 = ledger w ∧ stdout w1 = stdout w ∧ NoDup grids.
Proof.
  intros Hrun.
  destruct (discover_all_grids_quiet (session_start web w)) as [Hl Ho].
  destruct (session_start_quiet w) as [Hl' Ho'].
  rewrite Hrun in Hl, Ho. simpl in *.
  split; [congruence|]. split; [congruence|].
  unfold discover_all_grids in Hrun.
  apply bind_Ok in Hrun as (raw & w2 & _ & Hret).
  injection Hret as <- _. apply dedup_ordered_NoDup.
Qed.

End Quiet.

(** ** Outcomes of the attempts *)

Section Outcomes.

Context {W : Type} (C : Collaborators W).
Implicit Types (done : gset string) (grids : list string) (gid : string) (w : W).

Lemma outcome_attempt_events gid w :
  (succeeded (attempt_events C gid w) = [gid] ∧ failed (attempt_events C gid w) = [])
  ∨ (succeeded (attempt_events C gid w) = [] ∧ failed (attempt_events C gid w) = [gid]).
Proof.
  unfold attempt_events.
  destruct (co_export gid START_YEAR END_YEAR w) as [[p|e] w']; simpl; auto.
Qed.

Lemma succeeded_loop_events_elem_of done grids w gid :
  gid ∈ succeeded (loop_events C done grids w) → gid ∈ grids.
Proof.
  revert w. induction grids as [|g grids IH]; intros w; cbn [loop_events].
  - simpl. by intros ?%elem_of_nil.
  - destruct (decide (g ∈ done)).
    + intros Hin. right. by eapply IH.
    + rewrite succeeded_app, elem_of_app.
      destruct (outcome_attempt_events g w) as [[-> _]|[-> _]].
      * intros [->%list_elem_of_singleton|Hin]; [left|right; by eapply IH].
      * intros [?%elem_of_nil|Hin]; [done|right; by eapply IH].
Qed.

Lemma failed_loop_events_elem_of done grids w gid :
  gid ∈ failed (loop_events C done grids w) → gid ∈ grids.
Proof.
  revert w. induction grids as [|g grids IH]; intros w; cbn [loop_events].
  - simpl. by intros ?%elem_of_nil.
  - destruct (decide (g ∈ done)).
    + intros Hin. right. by eapply IH.
    + rewrite failed_app, elem_of_app.
      destruct (outcome_attempt_events g w) as [[_ ->]|[_ ->]].
      * intros [?%elem_of_nil|Hin]; [done|right; by eapply IH].
      * intros [->%list_elem_of_singleton|Hin]; [left|right; by eapply IH].
Qed.

(** In a list without repeats a leaf is attempted once: one whose export
    raised is not among those whose export returned. *)
Lemma failed_not_succeeded done grids w gid :
  NoDup grids →
  gid ∈ failed (loop_events C done grids w) →
  gid ∉ succeeded (loop_events C done grids w).
Proof.
  intros Hnodup. revert w.
  induction Hnodup as [|g grids Hfresh Hnodup IH]; intros w; cbn [loop_events].
  - simpl. by intros ?%elem_of_nil.
  - destruct (decide (g ∈ done)); [apply IH|].
    rewrite failed_app, succeeded_app, !elem_of_app.
    destruct (outcome_attempt_events g w) as [[-> ->]|[-> ->]].
    + intros [?%elem_of_nil|Hin]; [done|].
      intros [->%list_elem_of_singleton|Hin'].
      * apply Hfresh. by eapply failed_loop_events_elem_of.
      * by eapply IH.
    + intros [->%list_elem_of_singleton|Hin] [?%elem_of_nil|Hin']; try done.
      * apply Hfresh. by eapply succeeded_loop_events_elem_of.
      * by eapply IH.
Qed.

End Outcomes.

(** ** The claims on the ledger and on the run *)

(** C7: once [mark_completed(id)] has appended [id] to a ledger file made of
    complete rows (or empty, or missing until then), the set that
    [get_completed] reads from that file contains [id], in whatever process
    reads it ([fresh] shares nothing with [w] but the file). *)
Theorem C7_marked_leaf_is_completed_on_fresh_read (id : string) (w fresh : world) :
  ledger_terminated w →
  ledger fresh = ledger (mark_completed id w) → id ∈ get_completed fresh.
Proof.
  intros Hterm Hsame.
  rewrite (get_completed_same_file _ _ Hsame), get_completed_mark by exact Hterm.
  apply elem_of_union_l, elem_of_singleton. reflexivity.
Qed.

Lemma C7_fresh_read_witness :
  "20110" ∈ get_completed
    {| clock := 0; session := false; tab := None; selected := λ _, None; files := ∅;
       pending := []; ledger := Some (LedgerFile [["14531"]; ["20110"]] None);
       stdout := []; fs_refuses := flat_directory; csv_join := plain_join |}.
Proof.
  apply (C7_marked_leaf_is_completed_on_fresh_read "20110"
           (mark_completed "14531" after_discovery)).
  - intros f Hf. vm_compute in Hf. by injection Hf as <-.
  - reflexivity.
Defined.


(** C10: when the ledger file does not exist, [get_completed] returns the
    empty set instead of failing, and the loop run with that set invokes the
    Exporter for every discovered leaf. *)
Theorem C10_missing_ledger_reads_as_empty
    {W : Type} (C : Collaborators W) (first_run : world) (grids : list string) (w : W) :
  ledger first_run = None →
  get_completed first_run = ∅
  ∧ attempted (export_loop (recording C) (get_completed first_run) grids (w, [])).2.2
    = grids.
Proof.
  intros Hnone. rewrite (get_completed_no_file _ Hnone). split; [reflexivity|].
  rewrite export_loop_recording. simpl. rewrite attempted_loop_events.
  induction grids as [|gid grids IH]; [reflexivity|].
  rewrite filter_cons_True by apply not_elem_of_empty. by rewrite IH.
Qed.

Lemma C10_missing_ledger_witness :
  get_completed fresh_world = ∅
  ∧ attempted (export_loop (recording (@script ascii_text demo_site))
                 (get_completed fresh_world) ["14530"; "14531"; "20110"]
                 (after_discovery, [])).2.2
    = ["14530"; "14531"; "20110"].
Proof.
  apply (C10_missing_ledger_reads_as_empty (@script ascii_text demo_site) fresh_world).
  reflexivity.
Defined.

Lemma failed_attempted (log : list event) (gid : string) :
  gid ∈ failed log → gid ∈ attempted log.
Proof.
  unfold failed, attempted. rewrite !list_elem_of_omap.
  intros (ev & Hin & Hev). exists ev. split; [assumption|].
  destruct ev as [g y0 y1 [p|e]|g]; simpl in *; congruence.
Qed.

Section RunClaims.

Context `{StrOps}.
Variable web : site.

Lemma main_observed (w : world) (grids : list string) (w1 : world) :
  discover_all_grids web (session_start web w) = (Ok grids, w1) →
  main web w = (Ok tt, set_session false (observed_loop web w grids w1).2.1)
  ∧ (observed_loop web w grids w1).2.2
    = loop_events (script web) (get_completed w) grids (print (discovered_line grids) w1)
  ∧ (observed_loop web w grids w1).2.1
    = (export_loop (script web) (get_completed w) grids
                   (print (discovered_line grids) w1)).2.
Proof.
  intros Hrun. unfold observed_loop. rewrite export_loop_recording. simpl.
  split; [|by split].
  rewrite main_unfold, Hrun. cbv zeta.
  by rewrite export_loop_returns.
Qed.

(** C4: once the leaves are discovered, whatever error the export of a
    leaf raises, [main] returns normally after the loop (and quits the
    driver); every discovered leaf not already completed has been attempted,
    in discovery order; the appends made are those of the leaves whose export
    returned, so that, on a ledger file made of complete rows, the completed
    set has gained exactly these leaves and a leaf whose export raised is not
    in it. *)
Theorem C4_failed_leaf_is_isolated (w : world) (grids : list string) (w1 : world) :
  discover_all_grids web (session_start web w) = (Ok grids, w1) →
  let out := observed_loop web w grids w1 in
  main web w = (Ok tt, set_session false out.2.1)
  ∧ attempted out.2.2 = filter (λ gid, gid ∉ get_completed w) grids
  ∧ marked out.2.2 = succeeded out.2.2
  ∧ (ledger_terminated w →
     ∀ gid, gid ∈ get_completed (main web w).2
            ↔ gid ∈ get_completed w ∨ gid ∈ succeeded out.2.2)
  ∧ (ledger_terminated w →
     ∀ gid, gid ∈ failed out.2.2 → gid ∉ get_completed (main web w).2).
Proof.
  intros Hrun. cbv zeta.
  destruct (main_observed w grids w1 Hrun) as (Hmain & Hlog & Hworld).
  destruct (discovery_quiet web w grids w1 Hrun) as (Hledger & _ & Hnodup).
  assert (Hcompleted : ledger_terminated w →
            ∀ gid, gid ∈ get_completed (main web w).2
            ↔ gid ∈ get_completed w ∨ gid ∈ succeeded (observed_loop web w grids w1).2.2).
  { intros Hterm gid. rewrite Hmain, Hlog, Hworld. simpl.
    rewrite (get_completed_same_file (set_session false _)
               (export_loop (script web) (get_completed w) grids
                            (print (discovered_line grids) w1)).2) by reflexivity.
    rewrite loop_script_ledger, elem_of_union, elem_of_list_to_set
      by (by apply (ledger_terminated_same_file w)).
    rewrite (get_completed_same_file (print _ w1) w) by exact Hledger.
    reflexivity. }
  split; [exact Hmain|]. rewrite Hlog.
  split; [apply attempted_loop_events|].
  split; [apply marked_loop_events|].
  split; [by rewrite <- Hlog|].
  intros Hterm gid Hfailed Hin. apply (Hcompleted Hterm) in Hin as [Hin|Hin].
  - apply failed_attempted in Hfailed. rewrite attempted_loop_events in Hfailed.
    apply list_elem_of_filter in Hfailed as [Hout _]. contradiction.
  - rewrite Hlog in Hin. by eapply failed_not_succeeded.
Qed.

(** C9 (as amended): [main] returns nothing and builds no summary.  What a
    run reports is its standard output: the line "Discovered N unique Grid
    IDs." with N the number of discovered leaves, then one line per leaf
    attempted, in order: "Saved <file name>" when its export returned,
    "[WARN] Grid <id> failed: <error>" when it raised.  Skipped leaves
    print nothing. *)
Theorem C9_run_reports_lines_not_counts (w : world) (grids : list string) (w1 : world) :
  discover_all_grids web (session_start web w) = (Ok grids, w1) →
  (main web w).1 = Ok tt
  ∧ stdout (main web w).2
    = stdout w ++ discovered_line grids :: omap report_line (observed_loop web w grids w1).2.2.
Proof.
  intros Hrun.
  destruct (main_observed w grids w1 Hrun) as (Hmain & Hlog & Hworld).
  destruct (discovery_quiet web w grids w1 Hrun) as (_ & Hout & _).
  rewrite Hmain. split; [reflexivity|].
  rewrite Hlog, Hworld. simpl.
  rewrite loop_script_stdout. simpl. rewrite Hout.
  by rewrite <- app_assoc.
Qed.

End RunClaims.

(** ** The claims at the example page *)

Lemma C4_failed_leaf_witness :
  let out := @observed_loop ascii_text demo_site fresh_world demo_grids demo_discovered in
  @main ascii_text demo_site fresh_world = (Ok tt, set_session false out.2.1)
  ∧ attempted out.2.2 = filter (λ gid, gid ∉ get_completed fresh_world) demo_grids
  ∧ marked out.2.2 = succeeded out.2.2
  ∧ (∀ gid, gid ∈ get_completed (@main ascii_text demo_site fresh_world).2
            ↔ gid ∈ get_completed fresh_world ∨ gid ∈ succeeded out.2.2)
  ∧ (∀ gid, gid ∈ failed out.2.2
            → gid ∉ get_completed (@main ascii_text demo_site fresh_world).2).
Proof.
  assert (Hterm : ledger_terminated fresh_world) by (intros f Hf; discriminate Hf).
  destruct (@C4_failed_leaf_is_isolated ascii_text demo_site fresh_world demo_grids
              demo_discovered) as (Hmain & Hattempted & Hmarked & Hgained & Hfailed).
  { vm_compute. reflexivity. }
  split; [exact Hmain|]. split; [exact Hattempted|]. split; [exact Hmarked|].
  split; [exact (Hgained Hterm)|exact (Hfailed Hterm)].
Defined.

Lemma C9_run_reports_witness :
  (@main ascii_text demo_site fresh_world).1 = Ok tt
  ∧ stdout (@main ascii_text demo_site fresh_world).2
    = stdout fresh_world
      ++ @discovered_line demo_grids
         :: omap report_line
              (@observed_loop ascii_text demo_site fresh_world demo_grids demo_discovered).2.2.
Proof.
  apply (@C9_run_reports_lines_not_counts ascii_text demo_site fresh_world demo_grids
           demo_discovered).
  vm_compute. reflexivity.
Defined.

(** The claim C9 as stated: two runs with different counts, a first one
    (3 attempted, none skipped, 2 succeeded, 1 failed) and a second one
    (1 attempted, 2 skipped, none succeeded, 1 failed), return the same
    value, [None]; no summary can be read off the value returned. *)
Lemma C9_counterexample :
  (@main ascii_text demo_site fresh_world).1 = Ok tt
  ∧ (@main ascii_text demo_site second_run).1 = Ok tt
  ∧ @observed_summary ascii_text demo_site fresh_world = Some (Summary 3 0 2 1)
  ∧ @observed_summary ascii_text demo_site second_run = Some (Summary 1 2 0 1)
  ∧ ¬ ∃ counts : result unit → option summary,
        counts (@main ascii_text demo_site fresh_world).1
        = @observed_summary ascii_text demo_site fresh_world
        ∧ counts (@main ascii_text demo_site second_run).1
          = @observed_summary ascii_text demo_site second_run.
Proof.
  assert (H1 : (@main ascii_text demo_site fresh_world).1 = Ok tt) by (by vm_compute).
  assert (H2 : (@main ascii_text demo_site second_run).1 = Ok tt) by (by vm_compute).
  assert (H3 : @observed_summary ascii_text demo_site fresh_world = Some (Summary 3 0 2 1))
    by (by vm_compute).
  assert (H4 : @observed_summary ascii_text demo_site second_run = Some (Summary 1 2 0 1))
    by (by vm_compute).
  repeat (split; [assumption|]).
  intros (counts & Hfirst & Hsecond).
  rewrite H1, H3 in Hfirst. rewrite H2, H4 in Hsecond. congruence.
Qed.

(** * Further properties of the script *)

(** ** Ledger: what [get_completed] reads *)

Lemma add_rows_elem_of (rows : list (list string)) (acc : gset string) (g : string) :
  g ∈ fold_left add_row rows acc ↔ g ∈ acc ∨ ∃ rest, (g :: rest) ∈ rows.
Proof.
  revert acc. induction rows as [|row rows IH]; intros acc; simpl.
  - split; [by left|]. intros [?|[rest Hin]]; [assumption|]. by apply elem_of_nil in Hin.
  - rewrite IH. destruct row as [|first others]; simpl.
    + split.
      * intros [?|[rest Hin]]; [by left|]. right. exists rest. by right.
      * intros [?|[rest Hin]]; [by left|]. right. exists rest.
        apply elem_of_cons in Hin as [Hin|Hin]; [discriminate|assumption].
    + rewrite elem_of_union, elem_of_singleton. split.
      * intros [[->|?]|[rest Hin]].
        -- right. exists others. left.
        -- by left.
        -- right. exists rest. by right.
      * intros [?|[rest Hin]]; [left; by right|].
        apply elem_of_cons in Hin as [Heq|Hin].
        -- injection Heq as -> _. left. by left.
        -- right. by exists rest.
Qed.

(** The completed set is the set of first fields of the non-empty rows of
    the ledger: blank rows and the fields after the first are ignored, repeated
    rows collapse, and a missing file gives no member. *)
Theorem get_completed_is_first_fields (w : world) (g : string) :
  g ∈ get_completed w ↔ ∃ file rest, ledger w = Some file ∧ (g :: rest) ∈ lf_rows file.
Proof.
  unfold get_completed. destruct (ledger w) as [file|].
  - rewrite add_rows_elem_of. split.
    + intros [Hin|[rest Hin]]; [by apply elem_of_empty in Hin|]. by exists file, rest.
    + intros (file' & rest & Heq & Hin). injection Heq as <-. right. by exists rest.
  - split; [by intros ?%elem_of_empty|]. by intros (file & rest & Heq & _).
Qed.

(** On a ledger file made of complete rows, marking never removes an
    entry, and marking a leaf that is already completed does not change the
    completed set. *)
Theorem mark_completed_only_adds (grid_id : string) (w : world) :
  ledger_terminated w →
  get_completed w ⊆ get_completed (mark_completed grid_id w)
  ∧ (grid_id ∈ get_completed w →
     get_completed (mark_completed grid_id w) = get_completed w).
Proof.
  intros Hterm. rewrite get_completed_mark by exact Hterm. split.
  - apply union_subseteq_r.
  - intros Hin. apply subseteq_union_1_L. by apply singleton_subseteq_l.
Qed.

Lemma mark_completed_only_adds_witness :
  get_completed second_run ⊆ get_completed (mark_completed "20110" second_run)
  ∧ get_completed (mark_completed "20110" second_run) = get_completed second_run.
Proof.
  destruct (mark_completed_only_adds "20110" second_run) as [Hsub Hsame].
  { intros f Hf. vm_compute in Hf. by injection Hf as <-. }
  split; [exact Hsub|]. apply Hsame. by vm_compute.
Defined.

(** ** Enumerator: more on the de-duplication *)

(** A list without repeats is returned as it is; hence de-duplicating
    twice is de-duplicating once. *)
Lemma dedup_ordered_NoDup_id (l : list string) : NoDup l → dedup_ordered l = l.
Proof.
  induction l as [|y l IH] using rev_ind; [reflexivity|].
  intros (Hl & Hfresh & _)%NoDup_app. rewrite dedup_ordered_snoc, IH by assumption.
  rewrite decide_False; [reflexivity|].
  intros Hin. apply (Hfresh y Hin). left.
Qed.

(** The de-duplication returns a list without repeats as it is, and
    applying it twice gives what applying it once gives. *)
Theorem dedup_ordered_idempotent (l : list string) :
  (NoDup l → dedup_ordered l = l)
  ∧ dedup_ordered (dedup_ordered l) = dedup_ordered l.
Proof.
  split; [apply dedup_ordered_NoDup_id|].
  apply dedup_ordered_NoDup_id, dedup_ordered_NoDup.
Qed.

(** The output is the input with some elements deleted: nothing is
    reordered and nothing is invented. *)
Theorem dedup_ordered_sublist (l : list string) : dedup_ordered l `sublist_of` l.
Proof.
  induction l as [|y l IH] using rev_ind; [reflexivity|].
  rewrite dedup_ordered_snoc. destruct (decide (y ∈ dedup_ordered l)).
  - by apply sublist_inserts_r.
  - by apply sublist_app.
Qed.

(** ** Orchestrator: a run against a complete ledger *)

(** When every discovered leaf is already completed the loop calls no
    collaborator at all: the environment is left exactly as it was. *)
Theorem export_loop_all_done {W : Type} (C : Collaborators W)
    (done : gset string) (grids : list string) (w : W) :
  (∀ gid, gid ∈ grids → gid ∈ done) →
  export_loop C done grids w = (Ok tt, w).
Proof.
  induction grids as [|gid grids IH]; intros Hall; [reflexivity|].
  rewrite export_loop_skip by (apply Hall; left).
  apply IH. intros g Hg. apply Hall. by right.
Qed.

Lemma export_loop_all_done_witness :
  export_loop (@script ascii_text demo_site) {[ "14531"; "20110" ]} ["14531"; "20110"]
              fresh_world
  = (Ok tt, fresh_world).
Proof.
  apply (export_loop_all_done (@script ascii_text demo_site)).
  intros gid Hin. vm_compute in Hin.
  apply elem_of_cons in Hin as [->|Hin]; [set_solver|].
  apply elem_of_cons in Hin as [->|Hin]; [set_solver|].
  by apply elem_of_nil in Hin.
Defined.

(** ** Exporter: the wait for the download and the rename *)

Lemma arrived_sleep (ms : N) (w : world) : arrived w ⊆ arrived (sleep ms w).
Proof.
  unfold arrived. intros name Hin.
  apply elem_of_list_to_set, list_elem_of_fmap in Hin as (d & -> & Hin).
  apply list_elem_of_filter in Hin as [Harrived Hin].
  apply elem_of_list_to_set, list_elem_of_fmap. exists d. split; [reflexivity|].
  apply list_elem_of_filter. split; [|exact Hin].
  unfold has_arrived in *. simpl. lia.
Qed.

(** A file that is there stays there while the script sleeps. *)
Lemma path_exists_sleep (p : Path) (ms : N) (w : world) :
  path_exists p w = true → path_exists p (sleep ms w) = true.
Proof.
  unfold path_exists. intros Hin%bool_decide_eq_true. apply bool_decide_eq_true.
  apply elem_of_union in Hin as [Hin|Hin]; apply elem_of_union; [by left|right].
  by apply arrived_sleep.
Qed.

Lemma pending_arrives (t : N) (name : string) (w : world) :
  (t, name) ∈ pending w → (t <= clock w)%N → path_exists (InDownloadDir name) w = true.
Proof.
  intros Hin Hle. unfold path_exists, arrived. apply bool_decide_eq_true.
  apply elem_of_union. right.
  apply elem_of_list_to_set, list_elem_of_fmap. exists (t, name). split; [reflexivity|].
  apply list_elem_of_filter. by split.
Qed.

(** The polling loop only sleeps, whole seconds and at most [retries] of
    them, and stops early only when the file is there. *)
Lemma poll_shape (src : Path) (retries : nat) (w : world) :
  ∃ k, (k <= 1000 * N.of_nat retries)%N
       ∧ poll src retries w = sleep k w
       ∧ (path_exists src (poll src retries w) = true ∨ k = (1000 * N.of_nat retries)%N).
Proof.
  revert w. induction retries as [|n IH]; intros w.
  - exists 0%N. rewrite sleep_0. simpl. split; [lia|]. split; [reflexivity|by right].
  - cbn [poll]. destruct (path_exists src w) eqn:Hexists.
    + exists 0%N. rewrite sleep_0. split; [lia|]. split; [reflexivity|by left].
    + destruct (IH (sleep 1000 w)) as (k & Hk & -> & Hend).
      exists (1000 + k)%N. rewrite sleep_sleep. split; [lia|]. split; [reflexivity|].
      destruct Hend as [Hthere| ->]; [left|right; lia].
      by rewrite sleep_sleep in Hthere.
Qed.

(** However the download goes, [rename_latest_download] gives the control
    back after at most [retries] seconds of polling and the half second it
    lets the file settle. *)
Theorem rename_latest_download_wait_is_bounded
    (tmp_name : string) (final_name : option string) (retries : nat) (w : world) :
  let w' := (rename_latest_download tmp_name final_name retries w).2 in
  (clock w <= clock w')%N ∧ (clock w' <= clock w + 1000 * N.of_nat retries + 500)%N.
Proof.
  cbv zeta. unfold rename_latest_download, bind, effect, read, raise, ret.
  destruct (poll_shape (InDownloadDir tmp_name) retries w) as (k & Hk & -> & _).
  destruct (negb (path_exists (InDownloadDir tmp_name) (sleep k w))); [simpl; lia|].
  destruct final_name as [name|]; [|simpl; lia].
  destruct (truthy name); [|simpl; lia].
  unfold path_replace.
  destruct (path_exists (InDownloadDir tmp_name) (sleep 500 (sleep k w))); [|simpl; lia].
  destruct (fs_refuses _ _); simpl; lia.
Qed.



Lemma rename_latest_download_lands (tmp_name name : string) (retries : nat) (w : world) :
  truthy name = true →
  fs_refuses w name = None →
  (tmp_name ∈ files w
   ∨ ∃ t, (t, tmp_name) ∈ pending w ∧ (t <= clock w + 1000 * N.of_nat retries)%N) →
  ∃ k w', path_exists (InDownloadDir tmp_name) (sleep 500 (sleep k w)) = true
          ∧ path_replace (InDownloadDir tmp_name) (InDownloadDir name)
                         (sleep 500 (sleep k w)) = (Ok tt, w')
          ∧ rename_latest_download tmp_name (Some name) retries w
            = (Ok (InDownloadDir name), w').
Proof.
  intros Htruthy Haccepts Hlands.
  destruct (poll_shape (InDownloadDir tmp_name) retries w) as (k & Hk & Hpoll & Hend).
  assert (Hthere : path_exists (InDownloadDir tmp_name) (sleep k w) = true).
  { rewrite Hpoll in Hend. destruct Hend as [?| ->]; [assumption|].
    destruct Hlands as [Hin|(t & Hin & Ht)].
    - unfold path_exists. apply bool_decide_eq_true, elem_of_union. by left.
    - apply (pending_arrives t); [exact Hin|simpl; lia]. }
  pose proof (path_exists_sleep _ 500 _ Hthere) as Hsettled.
  destruct (path_replace (InDownloadDir tmp_name) (InDownloadDir name)
              (sleep 500 (sleep k w))) as [[[]|e] w2] eqn:Hreplace.
  2:{ unfold path_replace in Hreplace. rewrite Hsettled in Hreplace.
      cbn [fs_refuses sleep set_clock rel_name] in Hreplace.
      rewrite Haccepts in Hreplace. discriminate. }
  exists k, w2. split; [exact Hsettled|]. split; [exact Hreplace|].
  unfold rename_latest_download, bind at 1, effect. rewrite Hpoll.
  unfold bind at 1, read. rewrite Hthere, Htruthy.
  cbn beta iota delta [negb]. unfold bind at 1. unfold bind, ret.
  by rewrite Hreplace.
Qed.



(** Called without a final name ([None], the default, or the empty string)
    on a file that is there, the function neither waits nor renames: it
    returns the path of the fixed-name file and leaves everything as it was. *)
Theorem rename_latest_download_without_final_name
    (tmp_name : string) (final_name : option string) (retries : nat) (w : world) :
  final_name = None ∨ final_name = Some "" →
  path_exists (InDownloadDir tmp_name) w = true →
  rename_latest_download tmp_name final_name retries w = (Ok (InDownloadDir tmp_name), w).
Proof.
  intros Hfinal Hthere.
  assert (Hpoll : poll (InDownloadDir tmp_name) retries w = w).
  { destruct retries; simpl; [reflexivity|]. by rewrite Hthere. }
  unfold rename_latest_download, bind, effect, read. rewrite Hpoll, Hthere. simpl.
  by destruct Hfinal as [-> | ->].
Qed.

Lemma rename_latest_download_without_final_name_witness :
  rename_latest_download "HistoricalIndexes.csv" None 60
    (set_files {[ "HistoricalIndexes.csv" ]} [] fresh_world)
  = (Ok (InDownloadDir "HistoricalIndexes.csv"),
     set_files {[ "HistoricalIndexes.csv" ]} [] fresh_world).
Proof.
  apply (rename_latest_download_without_final_name "HistoricalIndexes.csv" None 60).
  - by left.
  - by vm_compute.
Defined.

(** ** Exporter: when an export can succeed *)

Lemma bind_Ok_intro {W A B} (m : M W A) (k : A → M W B) (w w1 : W) (a : A) :
  m w = (Ok a, w1) → bind m k w = k a w1.
Proof. unfold bind. by intros ->. Qed.

Section ExportConditions.

Context `{StrOps}.
Variable web : site.

Lemma wait_for_Ok c timeout w c' w' :
  wait_for web c timeout w = (Ok c', w') → site_present web c = true ∧ c' = c ∧ w' = w.
Proof.
  unfold wait_for. destruct (site_present web c); [|discriminate].
  by intros [= <- <-].
Qed.

Lemma wait_for_present c timeout w :
  site_present web c = true → wait_for web c timeout w = (Ok c, w).
Proof. unfold wait_for. by intros ->. Qed.

Lemma select_by_visible_text_Ok sel_el t w w' :
  select_by_visible_text web sel_el t w = (Ok tt, w') →
  ∃ o, o ∈ options_of web sel_el w ∧ opt_text o = t.
Proof.
  unfold select_by_visible_text.
  destruct (find _ _) as [o|] eqn:Hfind; [|discriminate]. intros _.
  apply find_some in Hfind as [Hin Htext]. exists o.
  split; [by apply list_elem_of_In|]. by apply String.eqb_eq.
Qed.

Lemma select_by_visible_text_offered sel_el t w o :
  o ∈ options_of web sel_el w → opt_text o = t →
  ∃ o', select_by_visible_text web sel_el t w = (Ok tt, choose sel_el (opt_value o') w).
Proof.
  intros Hin Htext. unfold select_by_visible_text.
  destruct (find _ _) as [o'|] eqn:Hfind; [by exists o'|].
  apply list_elem_of_In in Hin.
  pose proof (find_none _ _ Hfind o Hin) as Hno. simpl in Hno.
  rewrite Htext, String.eqb_refl in Hno. discriminate.
Qed.

Lemma ensure_tab_Ok tab_text w :
  tab_click_error web tab_text = None →
  ∃ w1, ensure_tab web tab_text w = (Ok tt, w1) ∧ export_frame w w1.
Proof.
  intros Htab.
  pose proof (keeps_ensure_tab web tab_text w) as Hframe.
  pose proof (ensure_tab_returns web tab_text w Htab) as Hret.
  destruct (ensure_tab web tab_text w) as [r w1]. simpl in *. subst r. by exists w1.
Qed.

Lemma ensure_tab_Ok_frame tab_text w w1 u :
  ensure_tab web tab_text w = (Ok u, w1) → export_frame w w1.
Proof.
  intros Hrun. pose proof (keeps_ensure_tab web tab_text w) as Hframe.
  by rewrite Hrun in Hframe.
Qed.

(** The Grid list shown depends on the State and County selections only. *)
Lemma options_of_GridId_frame w w1 :
  export_frame w w1 → options_of web GridId w1 = options_of web GridId w.
Proof. intros (_ & _ & _ & Hs & Hc & _). unfold options_of. by rewrite Hs, Hc. Qed.

Lemma set_years_Ok start_year end_year w w' :
  set_years web start_year end_year w = (Ok tt, w') →
  site_present web HistoricalStartYear = true
  ∧ site_present web HistoricalEndYear = true
  ∧ (∃ o, o ∈ site_start_years web ∧ opt_text o = str_int start_year)
  ∧ (∃ o, o ∈ site_end_years web ∧ opt_text o = str_int end_year).
Proof.
  unfold set_years. intros Hrun.
  apply bind_Ok in Hrun as (_ & w1 & _ & Hrun).
  apply bind_Ok in Hrun as (start_sel & w2 & (Hps & -> & ->)%wait_for_Ok & Hrun).
  apply bind_Ok in Hrun as (end_sel & w3 & (Hpe & -> & ->)%wait_for_Ok & Hrun).
  apply bind_Ok in Hrun as ([] & w4 & Hstart%select_by_visible_text_Ok & Hrun).
  apply bind_Ok in Hrun as (_ & w5 & _ & Hrun).
  apply bind_Ok in Hrun as ([] & w6 & Hend%select_by_visible_text_Ok & Hrun).
  auto.
Qed.

Lemma set_years_offered start_year end_year w :
  tab_click_error web "Historical Indexes" = None →
  site_present web HistoricalStartYear = true →
  site_present web HistoricalEndYear = true →
  (∃ o, o ∈ site_start_years web ∧ opt_text o = str_int start_year) →
  (∃ o, o ∈ site_end_years web ∧ opt_text o = str_int end_year) →
  ∃ w', set_years web start_year end_year w = (Ok tt, w') ∧ export_frame w w'.
Proof.
  intros Hclick Hps Hpe (os & Hos & Hts) (oe & Hoe & Hte).
  pose proof (keeps_set_years web start_year end_year w) as Hframe.
  unfold set_years in *.
  destruct (ensure_tab_Ok "Historical Indexes" w Hclick) as (w1 & Htab & _).
  rewrite (bind_Ok_intro _ _ _ _ _ Htab) in *.
  rewrite (bind_Ok_intro _ _ _ _ _ (wait_for_present _ 20 w1 Hps)) in *.
  rewrite (bind_Ok_intro _ _ _ _ _ (wait_for_present _ 20 w1 Hpe)) in *.
  destruct (select_by_visible_text_offered HistoricalStartYear (str_int start_year) w1 os)
    as (os' & Hsel1); [exact Hos|exact Hts|].
  rewrite (bind_Ok_intro _ _ _ _ _ Hsel1) in *.
  unfold bind at 1, effect at 1 in Hframe. unfold bind at 1, effect at 1.
  set (w2 := sleep 200 (choose HistoricalStartYear (opt_value os') w1)) in *.
  destruct (select_by_visible_text_offered HistoricalEndYear (str_int end_year) w2 oe)
    as (oe' & Hsel2); [exact Hoe|exact Hte|].
  rewrite (bind_Ok_intro _ _ _ _ _ Hsel2) in *.
  unfold effect in *. simpl in *. eauto.
Qed.

(** An export returns a path only if: the five selects are on the page;
    an option with the leaf's id as visible text is in the Grid list as it
    stands under the State and County that the form holds when the export is
    called; the two years are offered as visible texts; and some link or
    button reads "export to csv" (in any case). *)
Theorem export_success_requires
    (grid_id : string) (start_year end_year : Z) (w w' : world) (p : Path) :
  export_grid_history web grid_id start_year end_year w = (Ok p, w') →
  (∀ c, site_present web c = true)
  ∧ (∃ o, o ∈ options_of web GridId w ∧ opt_text o = grid_id)
  ∧ (∃ o, o ∈ site_start_years web ∧ opt_text o = str_int start_year)
  ∧ (∃ o, o ∈ site_end_years web ∧ opt_text o = str_int end_year)
  ∧ (∃ b, b ∈ site_clickables web
          ∧ str_contains "export to csv" (lower (el_text b)) = true).
Proof.
  unfold export_grid_history. intros Hrun.
  apply bind_Ok in Hrun as (u & w1 & Hframe%ensure_tab_Ok_frame & Hrun).
  apply bind_Ok in Hrun as (state_sel & w2 & (Hp1 & -> & ->)%wait_for_Ok & Hrun).
  apply bind_Ok in Hrun as (county_sel & w3 & (Hp2 & -> & ->)%wait_for_Ok & Hrun).
  apply bind_Ok in Hrun as (grid_sel & w4 & (Hp3 & -> & ->)%wait_for_Ok & Hrun).
  apply bind_Ok in Hrun as ([] & w5 & Hgrid%select_by_visible_text_Ok & Hrun).
  apply bind_Ok in Hrun as (_ & w6 & _ & Hrun).
  apply bind_Ok in Hrun as ([] & w7 & (Hp4 & Hp5 & Hy0 & Hy1)%set_years_Ok & Hrun).
  rewrite (options_of_GridId_frame _ _ Hframe) in Hgrid.
  split; [by intros []|]. split; [exact Hgrid|]. split; [exact Hy0|]. split; [exact Hy1|].
  destruct (filter _ _) as [|b export_btns] eqn:Hbtns; [discriminate|].
  assert (Hb : b ∈ filter (λ b, str_contains "export to csv" (lower (el_text b)) = true)
                          (site_clickables web)) by (rewrite Hbtns; left).
  apply list_elem_of_filter in Hb as [Hreads Hb]. by exists b.
Qed.

(** Conversely these conditions are enough when the driver does not refuse
    the click on the tab, every control that reads "export to csv" starts the
    download, the page writes the file as HistoricalIndexes.csv within the 60
    seconds of the polling budget, and the file system accepts the name of
    the artifact as an entry of the directory: the export then returns the
    path of the renamed file. *)
Theorem export_succeeds
    (grid_id : string) (start_year end_year : Z) (w : world) (delay : N) :
  tab_click_error web "Historical Indexes" = None →
  fs_refuses w ("grid_" +:+ grid_id +:+ "_" +:+ str_int start_year +:+ "_"
                        +:+ str_int end_year +:+ ".csv") = None →
  (∀ c, site_present web c = true) →
  (∃ o, o ∈ options_of web GridId w ∧ opt_text o = grid_id) →
  (∃ o, o ∈ site_start_years web ∧ opt_text o = str_int start_year) →
  (∃ o, o ∈ site_end_years web ∧ opt_text o = str_int end_year) →
  (∃ b, b ∈ site_clickables web
        ∧ str_contains "export to csv" (lower (el_text b)) = true) →
  (∀ b, b ∈ site_clickables web →
        str_contains "export to csv" (lower (el_text b)) = true →
        el_action b = ExportCsv) →
  site_download web = Some (delay, "HistoricalIndexes.csv") →
  (delay <= 60000)%N →
  ∃ w', export_grid_history web grid_id start_year end_year w
        = (Ok (InDownloadDir ("grid_" +:+ grid_id +:+ "_" +:+ str_int start_year +:+ "_"
                                      +:+ str_int end_year +:+ ".csv")), w').
Proof.
  intros Hclick Haccepts Hpresent (o & Ho & Htext) Hy0 Hy1 (b & Hb & Hreads)
         Hstarts Hdownload Hdelay.
  unfold export_grid_history.
  destruct (ensure_tab_Ok "Historical Indexes" w Hclick) as (w1 & Htab & Hframe).
  rewrite (bind_Ok_intro _ _ _ _ _ Htab).
  rewrite !(bind_Ok_intro _ _ _ _ _ (wait_for_present _ 20 w1 (Hpresent _))).
  rewrite <- (options_of_GridId_frame _ _ Hframe) in Ho.
  destruct (select_by_visible_text_offered GridId grid_id w1 o Ho Htext) as (o' & Hsel).
  rewrite (bind_Ok_intro _ _ _ _ _ Hsel).
  unfold bind at 1, effect at 1.
  set (w2 := sleep 300 (choose GridId (opt_value o') w1)).
  destruct (set_years_offered start_year end_year w2
              Hclick (Hpresent _) (Hpresent _) Hy0 Hy1) as (w3 & Hyears & Hframe3).
  rewrite (bind_Ok_intro _ _ _ _ _ Hyears).
  assert (Hfs : fs_refuses w3 = fs_refuses w).
  { destruct Hframe as (_ & _ & _ & _ & _ & Hfs1).
    destruct Hframe3 as (_ & _ & _ & _ & _ & Hfs3).
    rewrite Hfs3. subst w2. simpl. exact Hfs1. }
  destruct (filter _ _) as [|b0 export_btns] eqn:Hbtns.
  { assert (Hin : b ∈ filter (λ b, str_contains "export to csv" (lower (el_text b)) = true)
                             (site_clickables web)) by (by apply list_elem_of_filter).
    rewrite Hbtns in Hin. by apply elem_of_nil in Hin. }
  assert (Hb0 : b0 ∈ filter (λ b, str_contains "export to csv" (lower (el_text b)) = true)
                            (site_clickables web)) by (rewrite Hbtns; left).
  apply list_elem_of_filter in Hb0 as [Hreads0 Hb0].
  unfold bind at 1, click.
  rewrite (Hstarts b0 Hb0 Hreads0), Hdownload.
  set (w4 := set_files (files w3)
               (pending w3 ++ [((clock w3 + delay)%N, "HistoricalIndexes.csv")]) w3).
  match goal with
  | |- context [rename_latest_download ?tmp (Some ?name) 60] =>
      destruct (rename_latest_download_lands tmp name 60 w4)
        as (k & w' & _ & _ & Hrename); [reflexivity| | |]
  end.
  - subst w4. cbn [fs_refuses set_files]. rewrite Hfs. exact Haccepts.
  - right. exists (clock w3 + delay)%N. simpl. split; [|lia].
    apply elem_of_app. right. left.
  - exists w'. by rewrite (bind_Ok_intro _ _ _ _ _ Hrename).
Qed.

End ExportConditions.

Lemma export_success_requires_witness :
  (∀ c, site_present demo_site c = true)
  ∧ (∃ o, o ∈ @options_of demo_site GridId after_discovery ∧ opt_text o = "20110")
  ∧ (∃ o, o ∈ site_start_years demo_site ∧ opt_text o = str_int 1940)
  ∧ (∃ o, o ∈ site_end_years demo_site ∧ opt_text o = str_int 2025)
  ∧ (∃ b, b ∈ site_clickables demo_site
          ∧ str_contains "export to csv" (@lower ascii_text (el_text b)) = true).
Proof.
  apply (@export_success_requires ascii_text demo_site "20110" 1940 2025 after_discovery
           (@export_grid_history ascii_text demo_site "20110" 1940 2025 after_discovery).2
           (InDownloadDir "grid_20110_1940_2025.csv")).
  vm_compute. reflexivity.
Defined.

Lemma export_succeeds_witness :
  ∃ w', @export_grid_history ascii_text demo_site "20110" 1940 2025 after_discovery
        = (Ok (InDownloadDir ("grid_" +:+ "20110" +:+ "_" +:+ str_int 1940 +:+ "_"
                                      +:+ str_int 2025 +:+ ".csv")), w').
Proof.
  apply (@export_succeeds ascii_text demo_site "20110" 1940 2025 after_discovery 2500).
  - reflexivity.
  - reflexivity.
  - intros c. reflexivity.
  - exists (OptionEl "20110" (Some "20110")). split; [|reflexivity].
    vm_compute. apply list_elem_of_further, list_elem_of_here.
  - exists (OptionEl "1940" (Some "1940")). split; [left|reflexivity].
  - exists (OptionEl "2025" (Some "2025")). split; [right; left|reflexivity].
  - exists (Clickable "Export to CSV" ExportCsv). split; [right; right; left|reflexivity].
  - intros b Hin Hreads. simpl in Hin.
    apply elem_of_cons in Hin as [->|Hin]; [vm_compute in Hreads; discriminate|].
    apply elem_of_cons in Hin as [->|Hin]; [vm_compute in Hreads; discriminate|].
    apply elem_of_cons in Hin as [->|Hin]; [reflexivity|].
    by apply elem_of_nil in Hin.
  - reflexivity.
  - vm_compute. discriminate.
Defined.

Section ExportInversion.

Context `{StrOps}.
Variable web : site.

(** What a returned export went through: the leaf was offered under the
    parents in the form, and the path is the one of the renamed file. *)
Lemma export_grid_history_Ok_inv grid_id start_year end_year w p w' :
  export_grid_history web grid_id start_year end_year w = (Ok p, w') →
  (∃ o, o ∈ options_of web GridId w ∧ opt_text o = grid_id)
  ∧ p = InDownloadDir ("grid_" +:+ grid_id +:+ "_" +:+ str_int start_year +:+ "_"
                               +:+ str_int end_year +:+ ".csv")
  ∧ path_exists p w' = true.
Proof.
  unfold export_grid_history. intros Hrun.
  apply bind_Ok in Hrun as (u & w1 & Hframe%ensure_tab_Ok_frame & Hrun).
  apply bind_Ok in Hrun as (state_sel & w2 & (_ & -> & ->)%wait_for_Ok & Hrun).
  apply bind_Ok in Hrun as (county_sel & w3 & (_ & -> & ->)%wait_for_Ok & Hrun).
  apply bind_Ok in Hrun as (grid_sel & w4 & (_ & -> & ->)%wait_for_Ok & Hrun).
  apply bind_Ok in Hrun as ([] & w5 & Hgrid%select_by_visible_text_Ok & Hrun).
  rewrite (options_of_GridId_frame _ _ _ Hframe) in Hgrid. split; [exact Hgrid|].
  apply bind_Ok in Hrun as (_ & w6 & _ & Hrun).
  apply bind_Ok in Hrun as (_ & w7 & _ & Hrun).
  destruct (filter _ _) as [|b export_btns]; [discriminate|].
  apply bind_Ok in Hrun as (_ & w8 & _ & Hrun).
  apply bind_Ok in Hrun as (path & w9 & Hrename & Hrun).
  injection Hrun as Hp Hw. subst path w9.
  by apply rename_latest_download_Ok in Hrename.
Qed.

Lemma find_text_none (opts : list option_el) (t : string) :
  (∀ o, o ∈ opts → opt_text o ≠ t) →
  find (λ o, String.eqb (opt_text o) t) opts = None.
Proof.
  intros Hnone. destruct (find _ _) as [o|] eqn:Hfind; [|reflexivity].
  apply find_some in Hfind as [Hin Htext%String.eqb_eq].
  exfalso. by apply (Hnone o); [apply list_elem_of_In|].
Qed.

(** A year that the page does not offer is refused: with both year selects
    on the page, [set_years] raises NoSuchElementException when the start
    year or the end year is not the visible text of an option (unless the
    driver has refused the click on the tab before: the exception is then
    that of the click). *)
Theorem set_years_refuses_a_year_not_offered (start_year end_year : Z) (w : world) :
  site_present web HistoricalStartYear = true →
  site_present web HistoricalEndYear = true →
  (∀ o, o ∈ site_start_years web → opt_text o ≠ str_int start_year)
  ∨ (∀ o, o ∈ site_end_years web → opt_text o ≠ str_int end_year) →
  ∃ e, (set_years web start_year end_year w).1 = Raise e
       ∧ match tab_click_error web "Historical Indexes" with
         | Some refused => e = refused
         | None => exn_class e = "NoSuchElementException"
         end.
Proof.
  intros Hps Hpe Hmissing. unfold set_years.
  destruct (tab_click_error web "Historical Indexes") as [refused|] eqn:Hclick.
  { unfold bind at 1. rewrite (ensure_tab_raises web _ _ _ Hclick). simpl. eauto. }
  destruct (ensure_tab_Ok web "Historical Indexes" w Hclick) as (w1 & Htab & _).
  rewrite (bind_Ok_intro _ _ _ _ _ Htab).
  rewrite (bind_Ok_intro _ _ _ _ _ (wait_for_present web _ 20 w1 Hps)).
  rewrite (bind_Ok_intro _ _ _ _ _ (wait_for_present web _ 20 w1 Hpe)).
  unfold bind at 1, select_by_visible_text at 1. cbn [options_of].
  destruct (find _ (site_start_years web)) as [os|] eqn:Hstart.
  - destruct Hmissing as [Hno|Hno].
    { rewrite (find_text_none _ _ Hno) in Hstart. discriminate. }
    unfold bind at 1, effect at 1. unfold bind at 1, select_by_visible_text.
    cbn [options_of]. rewrite (find_text_none _ _ Hno). simpl. eauto.
  - simpl. eauto.
Qed.

End ExportInversion.

Lemma set_years_refuses_witness :
  ∃ e, (@set_years ascii_text demo_site 1940 2030 fresh_world).1 = Raise e
       ∧ exn_class e = "NoSuchElementException".
Proof.
  apply (@set_years_refuses_a_year_not_offered ascii_text demo_site 1940 2030 fresh_world);
    try reflexivity.
  right. intros o Hin. simpl in Hin.
  apply elem_of_cons in Hin as [->|Hin]; [discriminate|].
  apply elem_of_cons in Hin as [->|Hin]; [discriminate|].
  by apply elem_of_nil in Hin.
Defined.

(** ** Enumerator: what the discovery returns and where it leaves the form *)

Lemma demo_site_walkable : @walkable ascii_text demo_site.
Proof.
  split.
  - intros s Hs. vm_compute in Hs.
    repeat (apply elem_of_cons in Hs as [->|Hs]; [discriminate|]).
    by apply elem_of_nil in Hs.
  - intros s c Hs Hc. vm_compute in Hs.
    repeat (apply elem_of_cons in Hs as [->|Hs];
            [vm_compute in Hc;
             repeat (apply elem_of_cons in Hc as [->|Hc]; [discriminate|]);
             by apply elem_of_nil in Hc|]).
    by apply elem_of_nil in Hs.
Qed.

Lemma for_fold_app {W A B} (l1 l2 : list A) (body : B → A → M W B) (acc : B) (w : W) :
  for_fold (l1 ++ l2) body acc w = bind (for_fold l1 body acc) (for_fold l2 body) w.
Proof.
  revert acc w. induction l1 as [|x l1 IH]; intros acc w; simpl.
  - reflexivity.
  - unfold bind in *. destruct (body acc x w) as [[r|e] w1]; [apply IH|reflexivity].
Qed.

Section DiscoveryFacts.

Context `{StrOps}.
Variable web : site.

Lemma collect_grids_elem_of (grids : list option_el) (acc : list string) (g : string) :
  g ∈ fold_left collect_grids grids acc
  ↔ g ∈ acc ∨ ∃ o, o ∈ grids ∧ truthy (strip (opt_value o)) = true
                   ∧ g = strip (opt_value o).
Proof.
  revert acc. induction grids as [|o grids IH]; intros acc; simpl.
  - split; [by left|]. intros [?|(o & Hin & _)]; [assumption|]. by apply elem_of_nil in Hin.
  - rewrite IH. unfold collect_grids. destruct (truthy (strip (opt_value o))) eqn:Ho.
    + rewrite elem_of_app, list_elem_of_singleton. split.
      * intros [[?| ->]|(o' & Hin & ? & ?)]; [by left| |].
        -- right. exists o. split; [left|]. by split.
        -- right. exists o'. split; [by right|]. by split.
      * intros [?|(o' & Hin & Ho' & ->)]; [left; by left|].
        apply elem_of_cons in Hin as [->|Hin]; [left; by right|].
        right. by exists o'.
    + split.
      * intros [?|(o' & Hin & ? & ?)]; [by left|].
        right. exists o'. split; [by right|]. by split.
      * intros [?|(o' & Hin & Ho' & ->)]; [by left|].
        apply elem_of_cons in Hin as [->|Hin]; [congruence|].
        right. by exists o'.
Qed.

Lemma leaves_of_branches_elem_of (g : string) :
  g ∈ leaves_of web (branches web)
  ↔ ∃ s c o, s ∈ offered (site_states web)
             ∧ c ∈ offered (site_counties web (opt_value s))
             ∧ o ∈ offered (site_grids web (opt_value s) (opt_value c))
             ∧ g = strip (opt_value o).
Proof.
  unfold leaves_of, branches, branches_of.
  rewrite list_elem_of_In, in_flat_map. split.
  - intros ([sv cv] & Hb & Hg).
    apply in_flat_map in Hb as (s & Hs & Hb).
    apply list_elem_of_In, list_elem_of_fmap in Hb as (c & [= -> ->] & Hc).
    apply list_elem_of_In, collect_grids_elem_of in Hg
      as [Hg|(o & Ho & _ & ->)]; [by apply elem_of_nil in Hg|].
    exists s, c, o. split; [by apply list_elem_of_In|]. by split.
  - intros (s & c & o & Hs & Hc & Ho & ->).
    exists (opt_value s, opt_value c). split.
    + apply in_flat_map. exists s. split; [by apply list_elem_of_In|].
      apply list_elem_of_In, list_elem_of_fmap. by exists c.
    + apply list_elem_of_In, collect_grids_elem_of. right. exists o.
      split; [exact Ho|]. split; [|reflexivity].
      by apply list_elem_of_filter in Ho as [Ho _].
Qed.

Lemma truthy_not_empty (v : string) : truthy v = true ↔ v ≠ "".
Proof. destruct v; simpl; split; congruence. Qed.

Lemma offered_elem_of (opts : list option_el) (o : option_el) :
  o ∈ offered opts ↔ o ∈ opts ∧ strip (opt_value o) ≠ "".
Proof.
  unfold offered. rewrite list_elem_of_filter, truthy_not_empty. tauto.
Qed.

Lemma discover_all_grids_Ok w grids w' :
  discover_all_grids web w = (Ok grids, w') →
  grids = dedup_ordered (leaves_of web (branches web)).
Proof.
  unfold discover_all_grids. intros Hrun.
  apply bind_Ok in Hrun as (raw & w0 & Hraw%discover_raw_Ok & Hret).
  injection Hret as <- _. by rewrite Hraw.
Qed.

Lemma discover_all_grids_value w :
  site_present web State = true → site_present web County = true →
  site_present web GridId = true →
  tab_click_error web "Historical Indexes" = None →
  walkable web →
  ∃ w', discover_all_grids web w = (Ok (dedup_ordered (leaves_of web (branches web))), w').
Proof.
  intros Hs Hc Hg Hclick Hwalk.
  destruct (discover_raw_spec web w Hs Hc Hg Hclick Hwalk) as (w' & Hraw).
  exists w'. unfold discover_all_grids, bind. by rewrite Hraw.
Qed.

(** With the three selects on the page, a tab click that the driver does
    not refuse and the values of the State and County options in [value]
    attributes, the discovery returns, and a value is in its result exactly
    when it is the stripped value of an option that carries one, in the Grid
    list shown under a State and a County that carry one too: the pairs the
    page really exposes, not every State with every County. *)
Theorem discover_returns_exactly_the_offered_leaves (w : world) :
  site_present web State = true → site_present web County = true →
  site_present web GridId = true →
  tab_click_error web "Historical Indexes" = None →
  walkable web →
  ∃ grids w', discover_all_grids web w = (Ok grids, w')
    ∧ ∀ g, g ∈ grids
           ↔ ∃ s c o, s ∈ offered (site_states web)
                      ∧ c ∈ offered (site_counties web (opt_value s))
                      ∧ o ∈ offered (site_grids web (opt_value s) (opt_value c))
                      ∧ g = strip (opt_value o).
Proof.
  intros Hs Hc Hg Hclick Hwalk.
  destruct (discover_all_grids_value w Hs Hc Hg Hclick Hwalk) as (w' & Hrun).
  eexists _, w'. split; [exact Hrun|].
  intros g. rewrite dedup_ordered_elem_of. apply leaves_of_branches_elem_of.
Qed.

(** No discovered leaf id is the empty string: a value that is empty once
    stripped is never appended to the list. *)
Theorem discovered_ids_are_not_empty (w w' : world) (grids : list string) :
  discover_all_grids web w = (Ok grids, w') →
  ∀ g, g ∈ grids → g ≠ "".
Proof.
  intros Hrun g Hin.
  rewrite (discover_all_grids_Ok _ _ _ Hrun) in Hin.
  apply dedup_ordered_elem_of, leaves_of_branches_elem_of in Hin
    as (s & c & o & _ & _ & Ho & ->).
  apply list_elem_of_filter in Ho as [Ho _]. intros Hempty.
  rewrite Hempty in Ho. discriminate.
Qed.

(** C3 (as amended): the walk has no readiness wait, no failure detection
    and no log.  When the Grid list of a branch (a State and County pair) has
    not populated, so that it offers no option with a value when it is read,
    the branch contributes nothing and the walk goes on: with the three
    selects on the page, a tab click that is not refused and the values of
    the State and County options in [value] attributes, the discovery returns,
    a value is in its result exactly when a branch other than this one offers
    it, no value is there twice, and nothing has been printed or written to
    the ledger. *)
Theorem C3_unpopulated_branch_is_skipped (w : world) (b : string * string) :
  site_present web State = true →
  site_present web County = true →
  site_present web GridId = true →
  tab_click_error web "Historical Indexes" = None →
  walkable web →
  offered (site_grids web b.1 b.2) = [] →
  ∃ grids w', discover_all_grids web w = (Ok grids, w')
    ∧ NoDup grids
    ∧ (∀ g, g ∈ grids
            ↔ ∃ s c o, s ∈ site_states web ∧ strip (opt_value s) ≠ ""
                       ∧ c ∈ site_counties web (opt_value s) ∧ strip (opt_value c) ≠ ""
                       ∧ (opt_value s, opt_value c) ≠ b
                       ∧ o ∈ site_grids web (opt_value s) (opt_value c)
                       ∧ g = strip (opt_value o) ∧ g ≠ "")
    ∧ stdout w' = stdout w ∧ ledger w' = ledger w.
Proof.
  intros Hs Hc Hg Hclick Hwalk Hempty.
  destruct (discover_all_grids_value w Hs Hc Hg Hclick Hwalk) as (w' & Hrun).
  destruct (discover_all_grids_quiet web w) as [Hledger Hstdout].
  rewrite Hrun in Hledger, Hstdout.
  eexists _, w'. split; [exact Hrun|].
  split; [apply dedup_ordered_NoDup|]. split; [|by split].
  intros g. rewrite dedup_ordered_elem_of, leaves_of_branches_elem_of.
  split.
  - intros (s & c & o & Hin_s & Hin_c & Hin_o & ->).
    exists s, c, o.
    assert ((opt_value s, opt_value c) ≠ b) as Hother.
    { intros <-. simpl in Hempty. rewrite Hempty in Hin_o. by apply elem_of_nil in Hin_o. }
    apply offered_elem_of in Hin_s as [? ?], Hin_c as [? ?], Hin_o as [? ?].
    by repeat split.
  - intros (s & c & o & Hin_s & Hval_s & Hin_c & Hval_c & _ & Hin_o & -> & Hval_o).
    exists s, c, o. by repeat split; apply offered_elem_of.
Qed.

(** The same one level up: a State whose County list has not populated
    contributes no branch, and the other States are still walked. *)
Theorem unpopulated_state_is_skipped (w : world) (s0 : option_el) :
  site_present web State = true →
  site_present web County = true →
  site_present web GridId = true →
  tab_click_error web "Historical Indexes" = None →
  walkable web →
  offered (site_counties web (opt_value s0)) = [] →
  ∃ grids w', discover_all_grids web w = (Ok grids, w')
    ∧ NoDup grids
    ∧ (∀ g, g ∈ grids
            ↔ ∃ s c o, s ∈ site_states web ∧ strip (opt_value s) ≠ ""
                       ∧ opt_value s ≠ opt_value s0
                       ∧ c ∈ site_counties web (opt_value s) ∧ strip (opt_value c) ≠ ""
                       ∧ o ∈ site_grids web (opt_value s) (opt_value c)
                       ∧ g = strip (opt_value o) ∧ g ≠ "").
Proof.
  intros Hs Hc Hg Hclick Hwalk Hempty.
  destruct (discover_all_grids_value w Hs Hc Hg Hclick Hwalk) as (w' & Hrun).
  eexists _, w'. split; [exact Hrun|].
  split; [apply dedup_ordered_NoDup|].
  intros g. rewrite dedup_ordered_elem_of, leaves_of_branches_elem_of.
  split.
  - intros (s & c & o & Hin_s & Hin_c & Hin_o & ->).
    exists s, c, o.
    assert (opt_value s ≠ opt_value s0) as Hother.
    { intros Heq. rewrite Heq, Hempty in Hin_c. by apply elem_of_nil in Hin_c. }
    apply offered_elem_of in Hin_s as [? ?], Hin_c as [? ?], Hin_o as [? ?].
    by repeat split.
  - intros (s & c & o & Hin_s & Hval_s & _ & Hin_c & Hval_c & Hin_o & -> & Hval_o).
    exists s, c, o. by repeat split; apply offered_elem_of.
Qed.

End DiscoveryFacts.

Lemma discover_returns_offered_witness :
  ∃ grids w', @discover_all_grids ascii_text demo_site fresh_world = (Ok grids, w')
    ∧ ∀ g, g ∈ grids
           ↔ ∃ s c o, s ∈ @offered ascii_text (site_states demo_site)
                      ∧ c ∈ @offered ascii_text (site_counties demo_site (opt_value s))
                      ∧ o ∈ @offered ascii_text
                             (site_grids demo_site (opt_value s) (opt_value c))
                      ∧ g = @strip ascii_text (opt_value o).
Proof.
  apply (@discover_returns_exactly_the_offered_leaves ascii_text demo_site fresh_world);
    try reflexivity.
  apply demo_site_walkable.
Defined.

Lemma discovered_ids_witness : "20110" ≠ "".
Proof.
  apply (@discovered_ids_are_not_empty ascii_text demo_site fresh_world after_discovery
           demo_grids).
  - vm_compute. reflexivity.
  - right. right. left.
Defined.

(** ** Where the discovery leaves the form, and what [main] can then export *)

Section LastBranch.

Context `{StrOps}.
Variable web : site.

(** The discovery leaves the form on the last State that carries a value
    and, when that State shows counties, on the last of them. *)
Lemma discover_final_selection (w w' : world) (grids : list string) (s c : option_el) :
  discover_all_grids web w = (Ok grids, w') →
  last (offered (site_states web)) = Some s →
  last (offered (site_counties web (opt_value s))) = Some c →
  selected w' State = Some (opt_value s) ∧ selected w' County = Some (opt_value c).
Proof.
  unfold discover_all_grids, discover_raw. intros Hrun Hlast_s Hlast_c.
  apply bind_Ok in Hrun as (raw & w0 & Hrun & Hret). injection Hret as _ <-.
  apply bind_Ok in Hrun as (u & w1 & _ & Hrun).
  apply bind_Ok in Hrun as (state_sel & w2 & (_ & -> & ->)%wait_for_Ok & Hrun).
  apply bind_Ok in Hrun as (county_sel & w3 & (_ & -> & ->)%wait_for_Ok & Hrun).
  apply bind_Ok in Hrun as (grid_sel & w4 & (_ & -> & ->)%wait_for_Ok & Hrun).
  unfold bind at 1, read in Hrun.
  unfold get_select_options at 1 in Hrun. cbn [options_of] in Hrun.
  fold (offered (site_states web)) in Hrun.
  apply last_Some in Hlast_s as (states & Hstates). rewrite Hstates in Hrun.
  rewrite for_fold_app in Hrun.
  apply bind_Ok in Hrun as (r1 & w5 & _ & Hrun). cbn [for_fold] in Hrun.
  apply bind_Ok in Hrun as (r2 & w6 & Hone & Hret). injection Hret as _ <-.
  apply walk_state_Ok in Hone as (_ & Hstate & Hcounty).
  rewrite Hlast_c in Hcounty. by split.
Qed.

Lemma attempt_script_keeps_parents gid w :
  selected (attempt (script web) gid w).2 State = selected w State
  ∧ selected (attempt (script web) gid w).2 County = selected w County.
Proof.
  unfold attempt, try_except, bind, effect. simpl.
  destruct (keeps_export_grid_history web gid START_YEAR END_YEAR w)
    as (_ & _ & _ & Hstate & Hcounty & _).
  destruct (export_grid_history web gid START_YEAR END_YEAR w) as [[p|e] w1];
    [|by split].
  destruct (mark_completed_set_ledger gid (print ("Saved " +:+ path_name p) w1)) as [l ->].
  by split.
Qed.

Lemma succeeded_offered_under_parents sv cv done grids w g :
  selected w State = Some sv → selected w County = Some cv →
  g ∈ succeeded (loop_events (script web) done grids w) →
  ∃ o, o ∈ site_grids web sv cv ∧ opt_text o = g.
Proof.
  revert w. induction grids as [|gid grids IH]; intros w Hstate Hcounty; cbn [loop_events].
  - simpl. by intros ?%elem_of_nil.
  - destruct (decide (gid ∈ done)); [by apply IH|].
    rewrite succeeded_app, elem_of_app. intros [Hin|Hin].
    + unfold attempt_events in Hin. simpl in Hin.
      destruct (export_grid_history web gid START_YEAR END_YEAR w) as [[p|e] w1] eqn:Hrun;
        simpl in Hin; [|by apply elem_of_nil in Hin].
      apply list_elem_of_singleton in Hin as ->.
      apply export_grid_history_Ok_inv in Hrun as ((o & Ho & Htext) & _).
      unfold options_of in Ho. rewrite Hstate, Hcounty in Ho. by exists o.
    + destruct (attempt_script_keeps_parents gid w) as [Hs Hc].
      eapply IH; [| |exact Hin]; congruence.
Qed.

(** Once the leaves are discovered, the only leaves a run of [main] ever
    exports are those whose id is the visible text of an option in the Grid
    list of the last State and County the discovery walked: the exports select
    in the Grid list only, and the form still shows that last branch. *)
Theorem main_exports_only_leaves_of_the_last_branch
    (w : world) (grids : list string) (w1 : world) (s c : option_el) :
  discover_all_grids web (session_start web w) = (Ok grids, w1) →
  last (offered (site_states web)) = Some s →
  last (offered (site_counties web (opt_value s))) = Some c →
  ∀ g, g ∈ succeeded (observed_loop web w grids w1).2.2 →
       ∃ o, o ∈ site_grids web (opt_value s) (opt_value c) ∧ opt_text o = g.
Proof.
  intros Hrun Hlast_s Hlast_c g Hg.
  destruct (discover_final_selection _ _ _ s c Hrun Hlast_s Hlast_c) as [Hstate Hcounty].
  destruct (main_observed web w grids w1 Hrun) as (_ & Hlog & _).
  rewrite Hlog in Hg.
  by apply (succeeded_offered_under_parents (opt_value s) (opt_value c)) in Hg.
Qed.

End LastBranch.

Lemma main_exports_last_branch_witness :
  ∃ o, o ∈ site_grids demo_site (opt_value (OptionEl "Kansas" (Some "20")))
                      (opt_value (OptionEl "Ford" (Some "057")))
       ∧ opt_text o = "20110".
Proof.
  apply (@main_exports_only_leaves_of_the_last_branch ascii_text demo_site fresh_world
           demo_grids demo_discovered (OptionEl "Kansas" (Some "20")) (OptionEl "Ford" (Some "057"))).
  - vm_compute. reflexivity.
  - reflexivity.
  - reflexivity.
  - vm_compute. apply list_elem_of_further, list_elem_of_here.
Defined.

(** ** The run as a whole *)

#[global] Instance files_kept_preorder : PreOrder files_kept.
Proof.
  split.
  - by intros w name _ Hin.
  - intros w1 w2 w3 H12 H23 name Hne Hin. by apply H23, H12.
Qed.

Lemma files_kept_same (w w' : world) :
  files w' = files w → pending w' = pending w → clock w' = clock w → files_kept w w'.
Proof.
  intros Hf Hp Hc name _. unfold arrived. rewrite Hf, Hp.
  assert (Hfilter : filter (has_arrived w') (pending w) = filter (has_arrived w) (pending w)).
  { apply list_filter_iff. intros d. unfold has_arrived. by rewrite Hc. }
  by rewrite Hfilter.
Qed.

Lemma sleep_files_kept ms w : files_kept w (sleep ms w).
Proof.
  intros name _ Hin. apply elem_of_union in Hin as [Hin|Hin]; apply elem_of_union.
  - by left.
  - right. by apply arrived_sleep.
Qed.

Section FilesKept.

Context `{StrOps}.
Variable web : site.

Lemma click_files_kept el : keeps files_kept (click web el).
Proof.
  intros w. unfold click. destruct (el_action el); try by apply files_kept_same.
  destruct (site_download web) as [[delay name']|]; [|reflexivity].
  intros name _ Hin. apply elem_of_union in Hin as [Hin|Hin]; apply elem_of_union.
  - by left.
  - right. unfold arrived in *. simpl.
    apply elem_of_list_to_set, list_elem_of_fmap in Hin as (d & -> & Hin).
    apply list_elem_of_filter in Hin as [Harrived Hin].
    apply elem_of_list_to_set, list_elem_of_fmap. exists d. split; [reflexivity|].
    apply list_elem_of_filter. split; [exact Harrived|].
    apply elem_of_app. by left.
Qed.

Lemma ensure_tab_files_kept tab_text : keeps files_kept (ensure_tab web tab_text).
Proof.
  unfold ensure_tab. destruct (find _ _); [|apply (keeps_ret files_kept)].
  apply (keeps_bind files_kept); [apply click_files_kept|]. intros _.
  apply (keeps_effect files_kept), sleep_files_kept.
Qed.

Lemma wait_for_files_kept c timeout : keeps files_kept (wait_for web c timeout).
Proof.
  intros w. unfold wait_for.
  destruct (site_present web c); simpl; [reflexivity|apply sleep_files_kept].
Qed.

Lemma select_by_visible_text_files_kept sel_el t :
  keeps files_kept (select_by_visible_text web sel_el t).
Proof.
  intros w. unfold select_by_visible_text.
  destruct (find _ _); simpl; [|reflexivity]. by apply files_kept_same.
Qed.

Lemma path_replace_files_kept dst :
  keeps files_kept (path_replace (InDownloadDir "HistoricalIndexes.csv") dst).
Proof.
  intros w. unfold path_replace. destruct (path_exists _ w); simpl; [|reflexivity].
  destruct (fs_refuses _ _); simpl; [reflexivity|].
  intros name Hne Hin. apply elem_of_union. left. simpl.
  apply elem_of_union. right. apply elem_of_difference. split; [exact Hin|].
  by intros ?%elem_of_singleton.
Qed.

Lemma poll_files_kept src retries w : files_kept w (poll src retries w).
Proof.
  destruct (poll_shape src retries w) as (k & _ & -> & _). apply sleep_files_kept.
Qed.

Lemma rename_files_kept final_name retries :
  keeps files_kept (rename_latest_download "HistoricalIndexes.csv" final_name retries).
Proof.
  unfold rename_latest_download.
  apply (keeps_bind files_kept); [apply (keeps_effect files_kept), poll_files_kept|].
  intros _. apply (keeps_bind files_kept); [apply (keeps_read files_kept)|].
  intros present. destruct (negb present); [apply (keeps_raise files_kept)|].
  destruct final_name as [name|]; [|apply (keeps_ret files_kept)].
  destruct (truthy name); [|apply (keeps_ret files_kept)].
  apply (keeps_bind files_kept); [apply (keeps_effect files_kept), sleep_files_kept|].
  intros _. apply (keeps_bind files_kept); [apply path_replace_files_kept|].
  intros _. apply (keeps_ret files_kept).
Qed.

Lemma set_years_files_kept start_year end_year :
  keeps files_kept (set_years web start_year end_year).
Proof.
  unfold set_years.
  apply (keeps_bind files_kept); [apply ensure_tab_files_kept|]. intros _.
  apply (keeps_bind files_kept); [apply wait_for_files_kept|]. intros start_sel.
  apply (keeps_bind files_kept); [apply wait_for_files_kept|]. intros end_sel.
  apply (keeps_bind files_kept); [apply select_by_visible_text_files_kept|]. intros _.
  apply (keeps_bind files_kept); [apply (keeps_effect files_kept), sleep_files_kept|].
  intros _.
  apply (keeps_bind files_kept); [apply select_by_visible_text_files_kept|]. intros _.
  apply (keeps_effect files_kept), sleep_files_kept.
Qed.

(** An export deletes nothing but the fixed-name download it renames. *)
Lemma export_files_kept grid_id start_year end_year :
  keeps files_kept (export_grid_history web grid_id start_year end_year).
Proof.
  unfold export_grid_history.
  apply (keeps_bind files_kept); [apply ensure_tab_files_kept|]. intros _.
  apply (keeps_bind files_kept); [apply wait_for_files_kept|]. intros state_sel.
  apply (keeps_bind files_kept); [apply wait_for_files_kept|]. intros county_sel.
  apply (keeps_bind files_kept); [apply wait_for_files_kept|]. intros grid_sel.
  apply (keeps_bind files_kept); [apply select_by_visible_text_files_kept|]. intros _.
  apply (keeps_bind files_kept); [apply (keeps_effect files_kept), sleep_files_kept|].
  intros _.
  apply (keeps_bind files_kept); [apply set_years_files_kept|]. intros _.
  destruct (filter _ _) as [|b export_btns]; [apply (keeps_raise files_kept)|].
  apply (keeps_bind files_kept); [apply click_files_kept|].
  intros _.
  apply (keeps_bind files_kept); [apply rename_files_kept|]. intros path.
  apply (keeps_ret files_kept).
Qed.

Lemma attempt_files_kept gid w : files_kept w (attempt (script web) gid w).2.
Proof.
  unfold attempt, try_except, bind, effect. simpl.
  pose proof (export_files_kept gid START_YEAR END_YEAR w) as Hkept.
  destruct (export_grid_history web gid START_YEAR END_YEAR w) as [[p|e] w1]; simpl in *.
  - etransitivity; [exact Hkept|].
    etransitivity; [|apply sleep_files_kept].
    destruct (mark_completed_set_ledger gid (print ("Saved " +:+ path_name p) w1)) as [l ->].
    by apply files_kept_same.
  - etransitivity; [exact Hkept|]. by apply files_kept_same.
Qed.

Lemma loop_files_kept done grids w :
  files_kept w (export_loop (script web) done grids w).2.
Proof.
  revert w. induction grids as [|gid grids IH]; intros w; [reflexivity|].
  destruct (decide (gid ∈ done)).
  - rewrite export_loop_skip by assumption. apply IH.
  - rewrite export_loop_attempt by assumption.
    etransitivity; [apply attempt_files_kept|apply IH].
Qed.

Lemma files_kept_exists (name : string) (w w' : world) :
  name ≠ "HistoricalIndexes.csv" → files_kept w w' →
  path_exists (InDownloadDir name) w = true → path_exists (InDownloadDir name) w' = true.
Proof.
  unfold path_exists. intros Hne Hkept Hin%bool_decide_eq_true.
  apply bool_decide_eq_true. by apply Hkept.
Qed.

Lemma loop_artifacts_exist done grids w g :
  g ∈ succeeded (loop_events (script web) done grids w) →
  path_exists (InDownloadDir ("grid_" +:+ g +:+ "_" +:+ str_int START_YEAR +:+ "_"
                                      +:+ str_int END_YEAR +:+ ".csv"))
              (export_loop (script web) done grids w).2 = true.
Proof.
  revert w. induction grids as [|gid grids IH]; intros w; cbn [loop_events].
  - simpl. by intros ?%elem_of_nil.
  - destruct (decide (gid ∈ done)).
    { rewrite export_loop_skip by assumption. apply IH. }
    rewrite export_loop_attempt by assumption.
    rewrite succeeded_app, elem_of_app. intros [Hin|Hin]; [|by apply IH].
    apply (files_kept_exists _ (attempt (script web) gid w).2);
      [discriminate|apply loop_files_kept|].
    unfold attempt_events in Hin. unfold attempt, try_except, bind, effect. simpl in *.
    destruct (export_grid_history web gid START_YEAR END_YEAR w) as [[p|e] w1] eqn:Hrun;
      simpl in Hin; [|by apply elem_of_nil in Hin].
    apply list_elem_of_singleton in Hin as ->.
    apply export_grid_history_Ok_inv in Hrun as (_ & -> & Hthere). simpl.
    apply (files_kept_exists _ w1); [discriminate| |exact Hthere].
    etransitivity; [|apply sleep_files_kept].
    match goal with
    | |- files_kept _ (mark_completed ?g ?w0) =>
        destruct (mark_completed_set_ledger g w0) as [l ->]
    end.
    by apply files_kept_same.
Qed.

(** At the end of a run, every leaf that the run has appended to the
    ledger has its artifact in the download directory: later exports of the
    same run delete nothing but the fixed-name file they rename. *)
Theorem main_leaves_an_artifact_for_every_marked_leaf
    (w : world) (grids : list string) (w1 : world) (g : string) :
  discover_all_grids web (session_start web w) = (Ok grids, w1) →
  g ∈ marked (observed_loop web w grids w1).2.2 →
  path_exists (InDownloadDir ("grid_" +:+ g +:+ "_" +:+ str_int START_YEAR +:+ "_"
                                      +:+ str_int END_YEAR +:+ ".csv"))
              (main web w).2 = true.
Proof.
  intros Hrun Hmarked.
  destruct (main_observed web w grids w1 Hrun) as (Hmain & Hlog & Hworld).
  rewrite Hlog, marked_loop_events in Hmarked.
  apply loop_artifacts_exist in Hmarked.
  rewrite Hmain, Hworld. simpl.
  eapply files_kept_exists; [discriminate| |exact Hmarked].
  by apply files_kept_same.
Qed.

(** When the discovery raises, nothing in [main] catches the exception:
    [main] raises it, having printed nothing and left the ledger as it was,
    and the driver has been quit. *)
Theorem main_aborts_when_discovery_raises (w : world) (e : exn) :
  (discover_all_grids web (session_start web w)).1 = Raise e →
  (main web w).1 = Raise e
  ∧ stdout (main web w).2 = stdout w ∧ ledger (main web w).2 = ledger w
  ∧ session (main web w).2 = false.
Proof.
  rewrite main_unfold.
  destruct (discover_all_grids_quiet web (session_start web w)) as [Hl Ho].
  destruct (session_start_quiet web w) as [Hl' Ho'].
  destruct (discover_all_grids web (session_start web w)) as [[grids|e'] w1]; simpl in *;
    [discriminate|].
  intros [= ->]. split; [reflexivity|]. split; [congruence|]. split; [congruence|reflexivity].
Qed.

(** On a ledger file made of complete rows, a run never removes a leaf
    from the completed set, whether it ends normally or the discovery
    raises. *)
Theorem main_keeps_the_completed_leaves (w : world) :
  ledger_terminated w →
  get_completed w ⊆ get_completed (main web w).2.
Proof.
  intros Hterm. rewrite main_unfold.
  destruct (discover_all_grids_quiet web (session_start web w)) as [Hl _].
  destruct (session_start_quiet web w) as [Hl' _].
  destruct (discover_all_grids web (session_start web w)) as [[grids|e] w1]; simpl in *.
  - rewrite (get_completed_same_file (set_session false _)
               (export_loop (script web) (get_completed w) grids
                            (print (discovered_line grids) w1)).2) by reflexivity.
    rewrite loop_script_ledger
      by (apply (ledger_terminated_same_file w); [simpl; congruence|exact Hterm]).
    rewrite (get_completed_same_file (print _ w1) w) by (simpl; congruence).
    apply union_subseteq_l.
  - rewrite (get_completed_same_file (set_session false w1) w) by (simpl; congruence).
    reflexivity.
Qed.

(** Resuming: a leaf that one run exported, starting from a ledger file
    made of complete rows, is not attempted by a later run that reads the
    ledger the first one left, whatever that later run discovers and whatever
    its Exporter does. *)
Theorem exported_leaf_is_skipped_by_the_next_run
    (w : world) (grids : list string) (w1 : world) (g : string) (next : world)
    {W : Type} (C : Collaborators W) (grids' : list string) (w0 : W) :
  ledger_terminated w →
  discover_all_grids web (session_start web w) = (Ok grids, w1) →
  g ∈ succeeded (observed_loop web w grids w1).2.2 →
  ledger next = ledger (main web w).2 →
  g ∉ attempted (export_loop (recording C) (get_completed next) grids' (w0, [])).2.2.
Proof.
  intros Hterm Hrun Hexported Hsame.
  destruct (main_observed web w grids w1 Hrun) as (Hmain & Hlog & Hworld).
  destruct (discovery_quiet web w grids w1 Hrun) as (Hledger & _ & _).
  assert (Hdone : g ∈ get_completed next).
  { rewrite (get_completed_same_file _ _ Hsame), Hmain, Hworld. simpl.
    rewrite (get_completed_same_file (set_session false _)
               (export_loop (script web) (get_completed w) grids
                            (print (discovered_line grids) w1)).2) by reflexivity.
    rewrite loop_script_ledger, elem_of_union, elem_of_list_to_set
      by (by apply (ledger_terminated_same_file w)).
    right. by rewrite <- Hlog. }
  rewrite export_loop_recording. simpl. rewrite attempted_loop_events.
  intros [Hout _]%list_elem_of_filter. contradiction.
Qed.

End FilesKept.

Lemma main_leaves_an_artifact_witness :
  path_exists (InDownloadDir ("grid_" +:+ "14531" +:+ "_" +:+ str_int START_YEAR +:+ "_"
                                      +:+ str_int END_YEAR +:+ ".csv"))
              (@main ascii_text demo_site fresh_world).2 = true.
Proof.
  apply (@main_leaves_an_artifact_for_every_marked_leaf ascii_text demo_site fresh_world
           demo_grids demo_discovered "14531").
  - vm_compute. reflexivity.
  - vm_compute. apply list_elem_of_here.
Defined.

Lemma exported_leaf_is_skipped_witness :
  "20110" ∉ attempted (export_loop (recording (@script ascii_text demo_site))
                         (get_completed second_run) demo_grids (second_run, [])).2.2.
Proof.
  apply (@exported_leaf_is_skipped_by_the_next_run ascii_text demo_site fresh_world
           demo_grids demo_discovered "20110" second_run).
  - intros f Hf. discriminate Hf.
  - vm_compute. reflexivity.
  - vm_compute. apply list_elem_of_further, list_elem_of_here.
  - vm_compute. reflexivity.
Defined.

(** ** The walk and the pages that are not ready *)

Lemma sparse_site_walkable : @walkable ascii_text sparse_site.
Proof.
  split.
  - intros s Hs. vm_compute in Hs.
    repeat (apply elem_of_cons in Hs as [->|Hs]; [discriminate|]).
    by apply elem_of_nil in Hs.
  - intros s c Hs Hc. vm_compute in Hs.
    repeat (apply elem_of_cons in Hs as [->|Hs];
            [vm_compute in Hc;
             repeat (apply elem_of_cons in Hc as [->|Hc]; [discriminate|]);
             by apply elem_of_nil in Hc|]).
    by apply elem_of_nil in Hs.
Qed.

Lemma C3_unpopulated_branch_witness :
  ∃ grids w', @discover_all_grids ascii_text demo_site fresh_world = (Ok grids, w')
    ∧ NoDup grids
    ∧ (∀ g, g ∈ grids
            ↔ ∃ s c o, s ∈ site_states demo_site ∧ @strip ascii_text (opt_value s) ≠ ""
                       ∧ c ∈ site_counties demo_site (opt_value s)
                       ∧ @strip ascii_text (opt_value c) ≠ ""
                       ∧ (opt_value s, opt_value c) ≠ ("31", "001")
                       ∧ o ∈ site_grids demo_site (opt_value s) (opt_value c)
                       ∧ g = @strip ascii_text (opt_value o) ∧ g ≠ "")
    ∧ stdout w' = stdout fresh_world ∧ ledger w' = ledger fresh_world.
Proof.
  apply (@C3_unpopulated_branch_is_skipped ascii_text demo_site fresh_world ("31", "001"));
    try reflexivity.
  apply demo_site_walkable.
Defined.

(** The claim C3 as stated: the Enumerator detects and logs nothing, and
    the failures it does meet are not isolated.  On the example page the
    branch of State 31 and County 001 is unpopulated: the discovery returns
    the leaves of the other branches, a plain list of ids, and has printed
    nothing, so that nothing tells that a branch was skipped.  On the page
    whose Grid select does not appear within the 20 seconds of [wait_for],
    and on the page where one County option lacks its [value] attribute, the
    exception aborts the whole discovery, the leaves already read included. *)
Lemma C3_counterexample :
  ("31", "001") ∈ @branches ascii_text demo_site
  ∧ @offered ascii_text (site_grids demo_site "31" "001") = []
  ∧ (@discover_all_grids ascii_text demo_site fresh_world).1
    = Ok ["14530"; "14531"; "20110"]
  ∧ stdout (@discover_all_grids ascii_text demo_site fresh_world).2 = []
  ∧ (@discover_all_grids ascii_text gridless_site fresh_world).1
    = Raise (TimeoutException "")
  ∧ clock (@discover_all_grids ascii_text gridless_site fresh_world).2 = 20500%N
  ∧ (@discover_all_grids ascii_text attrless_site fresh_world).1
    = Raise (NoSuchElementException "Cannot locate option with value: Adams").
Proof.
  split; [vm_compute; apply list_elem_of_further, list_elem_of_here|].
  repeat split; by vm_compute.
Qed.

Lemma unpopulated_state_witness :
  ∃ grids w', @discover_all_grids ascii_text sparse_site fresh_world = (Ok grids, w')
    ∧ NoDup grids
    ∧ (∀ g, g ∈ grids
            ↔ ∃ s c o, s ∈ site_states sparse_site ∧ @strip ascii_text (opt_value s) ≠ ""
                       ∧ opt_value s ≠ opt_value (OptionEl "Ohio" (Some "39"))
                       ∧ c ∈ site_counties sparse_site (opt_value s)
                       ∧ @strip ascii_text (opt_value c) ≠ ""
                       ∧ o ∈ site_grids sparse_site (opt_value s) (opt_value c)
                       ∧ g = @strip ascii_text (opt_value o) ∧ g ≠ "").
Proof.
  apply (@unpopulated_state_is_skipped ascii_text sparse_site fresh_world
           (OptionEl "Ohio" (Some "39"))); try reflexivity.
  apply sparse_site_walkable.
Defined.

Lemma discover_aborts_witness :
  ∃ w', @discover_all_grids ascii_text gridless_site fresh_world
        = (Raise (TimeoutException ""), w').
Proof.
  apply (@discover_aborts_without_select ascii_text gridless_site fresh_world).
  reflexivity.
Defined.

Lemma main_aborts_witness :
  (@main ascii_text gridless_site fresh_world).1 = Raise (TimeoutException "")
  ∧ stdout (@main ascii_text gridless_site fresh_world).2 = stdout fresh_world
  ∧ ledger (@main ascii_text gridless_site fresh_world).2 = ledger fresh_world
  ∧ session (@main ascii_text gridless_site fresh_world).2 = false.
Proof.
  apply (@main_aborts_when_discovery_raises ascii_text gridless_site fresh_world).
  vm_compute. reflexivity.
Defined.

Lemma main_keeps_the_completed_witness :
  get_completed second_run ⊆ get_completed (@main ascii_text demo_site second_run).2.
Proof.
  apply (@main_keeps_the_completed_leaves ascii_text demo_site second_run).
  intros f Hf. vm_compute in Hf. by injection Hf as <-.
Defined.

(** ** What the environment can refuse *)


(** A State option whose value is in no [value] attribute of the list
    stops the walk at once, when it is the first the walk meets:
    [select_by_value] raises NoSuchElementException and the discovery with
    it. *)
Theorem discover_aborts_on_a_state_without_value_attribute `{StrOps} (web : site)
    (w : world) (s : option_el) (rest : list option_el) :
  site_present web State = true → site_present web County = true →
  site_present web GridId = true →
  tab_click_error web "Historical Indexes" = None →
  offered (site_states web) = s :: rest →
  (∀ o, o ∈ site_states web → opt_attr o ≠ Some (opt_value s)) →
  ∃ w', discover_all_grids web w
        = (Raise (NoSuchElementException
                    ("Cannot locate option with value: " +:+ opt_value s)), w').
Proof.
  intros Hs Hc Hg Hclick Hfirst Hnone.
  destruct (ensure_tab_Ok web "Historical Indexes" w Hclick) as (w1 & Htab & _).
  assert (Hfind : find (λ o, bool_decide (opt_attr o = Some (opt_value s)))
                       (site_states web) = None).
  { destruct (find _ _) as [o|] eqn:Hfind; [|reflexivity].
    apply find_some in Hfind as [Hin Hattr%bool_decide_eq_true].
    exfalso. by apply (Hnone o); [apply list_elem_of_In|]. }
  exists w1. unfold discover_all_grids. unfold bind at 1. unfold discover_raw.
  rewrite (bind_Ok_intro _ _ _ _ _ Htab).
  rewrite (bind_Ok_intro _ _ _ _ _ (wait_for_present web _ 20 w1 Hs)).
  rewrite (bind_Ok_intro _ _ _ _ _ (wait_for_present web _ 20 w1 Hc)).
  rewrite (bind_Ok_intro _ _ _ _ _ (wait_for_present web _ 20 w1 Hg)).
  unfold bind at 1, read. unfold get_select_options at 1. cbn [options_of].
  fold (offered (site_states web)). rewrite Hfirst. cbn [for_fold].
  unfold bind at 1. unfold walk_state. unfold bind at 1.
  unfold select_by_value. cbn [options_of]. by rewrite Hfind.
Qed.

Lemma discover_aborts_on_a_state_witness :
  ∃ w', @discover_all_grids ascii_text
          {| site_clickables := site_clickables demo_site;
             site_present := site_present demo_site;
             site_states := [ OptionEl "Texas" None ];
             site_counties := site_counties demo_site;
             site_grids := site_grids demo_site;
             site_start_years := site_start_years demo_site;
             site_end_years := site_end_years demo_site;
             site_download := site_download demo_site |} fresh_world
        = (Raise (NoSuchElementException
                    ("Cannot locate option with value: " +:+ opt_value (OptionEl "Texas" None))),
           w').
Proof.
  apply (@discover_aborts_on_a_state_without_value_attribute ascii_text _ fresh_world
           (OptionEl "Texas" None) []); try reflexivity.
  intros o Hin. simpl in Hin.
  apply elem_of_cons in Hin as [->|Hin]; [discriminate|].
  by apply elem_of_nil in Hin.
Defined.

(** When the file system refuses the final name, the rename raises that
    error once the download has landed, and the download stays in the
    directory under its fixed name. *)
Theorem refused_rename_leaves_the_download
    (tmp_name name : string) (retries : nat) (w : world) (e : exn) :
  truthy name = true →
  fs_refuses w name = Some e →
  (tmp_name ∈ files w
   ∨ ∃ t, (t, tmp_name) ∈ pending w ∧ (t <= clock w + 1000 * N.of_nat retries)%N) →
  ∃ w', rename_latest_download tmp_name (Some name) retries w = (Raise e, w')
        ∧ path_exists (InDownloadDir tmp_name) w' = true.
Proof.
  intros Htruthy Hrefuses Hlands.
  destruct (poll_shape (InDownloadDir tmp_name) retries w) as (k & Hk & Hpoll & Hend).
  assert (Hthere : path_exists (InDownloadDir tmp_name) (sleep k w) = true).
  { rewrite Hpoll in Hend. destruct Hend as [?| ->]; [assumption|].
    destruct Hlands as [Hin|(t & Hin & Ht)].
    - unfold path_exists. apply bool_decide_eq_true, elem_of_union. by left.
    - apply (pending_arrives t); [exact Hin|simpl; lia]. }
  pose proof (path_exists_sleep _ 500 _ Hthere) as Hsettled.
  exists (sleep 500 (sleep k w)). split; [|exact Hsettled].
  unfold rename_latest_download, bind at 1, effect. rewrite Hpoll.
  unfold bind at 1, read. rewrite Hthere, Htruthy.
  cbn beta iota delta [negb]. unfold bind at 1. unfold bind, ret, path_replace.
  rewrite Hsettled. cbn [fs_refuses sleep set_clock rel_name].
  by rewrite Hrefuses.
Qed.

Lemma refused_rename_witness :
  ∃ w', rename_latest_download "HistoricalIndexes.csv" (Some "grid_a/b_1940_2025.csv") 60
          (set_files {[ "HistoricalIndexes.csv" ]} [] fresh_world)
        = (Raise (FileNotFoundError "grid_a/b_1940_2025.csv"), w')
        ∧ path_exists (InDownloadDir "HistoricalIndexes.csv") w' = true.
Proof.
  apply (refused_rename_leaves_the_download
           "HistoricalIndexes.csv" "grid_a/b_1940_2025.csv" 60
           (set_files {[ "HistoricalIndexes.csv" ]} [] fresh_world)).
  - reflexivity.
  - reflexivity.
  - left. simpl. by apply elem_of_singleton.
Defined.
